(** * simple-transaction.js: the demo script of the Kaspa WASM SDK

    A shallow embedding of [src/wasm/nodejs/simple-transaction.js].

    - [Js]      : the fragment of JavaScript values the script computes with
                  (booleans, integers, negative zero, [||], unary minus);
    - [Utxo]    : the UTXO entries returned by the node and the comparator
                  sort of line 56;
    - [Builder] : the transaction builder behind [createTransactions], which
                  is not part of the script;
    - [Demo]    : [runDemo] itself, as a computation over a trace of the
                  calls it makes to its collaborators. *)

From Stdlib Require Import List String NArith ZArith QArith Bool Lia.
From Stdlib Require Import Sorting.Sorted Sorting.Permutation.
Import ListNotations.

Local Open Scope N_scope.

(* ===================================================================== *)
(** ** JavaScript values *)
(* ===================================================================== *)

Module Js.

(** The numbers the comparator can produce: integers and negative zero.
    [Int 0] is +0. *)
Inductive Num : Type :=
| Int (z : Z)
| NegZero.

Inductive Value : Type :=
| Bool (b : bool)
| Number (n : Num).

(** ToNumber on booleans and numbers. *)
Definition ToNumber (v : Value) : Num :=
  match v with
  | Bool true => Int 1
  | Bool false => Int 0
  | Number n => n
  end.

(** ToBoolean: false, +0 and -0 are falsy. *)
Definition ToBoolean (v : Value) : bool :=
  match v with
  | Bool b => b
  | Number (Int z) => negb (Z.eqb z 0)
  | Number NegZero => false
  end.

(** Unary minus: [-x] is the negation of [ToNumber x]; [-(+0)] is [-0]. *)
Definition neg (v : Value) : Value :=
  match ToNumber v with
  | Int 0%Z => Number NegZero
  | Int z => Number (Int (- z))
  | NegZero => Number (Int 0)
  end.

(** [x || y] yields [x] itself when it is truthy, [y] otherwise. *)
Definition or (x y : Value) : Value :=
  if ToBoolean x then x else y.

Definition is_positive (n : Num) : bool :=
  match n with
  | Int z => (0 <? z)%Z
  | NegZero => false
  end.

Definition is_negative (n : Num) : bool :=
  match n with
  | Int z => (z <? 0)%Z
  | NegZero => false
  end.

Definition is_zero (n : Num) : bool :=
  match n with
  | Int z => (z =? 0)%Z
  | NegZero => true
  end.

(** [s || d] on an optional string: [undefined] and the empty string are
    falsy. *)
Definition or_string (s : option string) (d : string) : string :=
  match s with
  | None => d
  | Some EmptyString => d
  | Some s' => s'
  end.

End Js.

(* ===================================================================== *)
(** ** UTXO entries and the comparator sort *)
(* ===================================================================== *)

Module Utxo.

Record TransactionOutpoint : Type := {
  transactionId : string;
  index : N
}.

(** [amount] is a BigInt holding an unsigned 64-bit quantity of sompi. *)
Record UtxoEntry : Type := {
  address : string;
  amount : N;
  blockDaaScore : N;
  isCoinbase : bool
}.

Record UtxoEntryReference : Type := {
  outpoint : TransactionOutpoint;
  utxoEntry : UtxoEntry
}.

Definition amt (e : UtxoEntryReference) : N := amount (utxoEntry e).

(** Line 56:
    [(a, b) => a.utxoEntry.amount > b.utxoEntry.amount
               || -(a.utxoEntry.amount < b.utxoEntry.amount)] *)
Definition comparator (a b : UtxoEntryReference) : Js.Value :=
  Js.or (Js.Bool (amt b <? amt a))
        (Js.neg (Js.Bool (amt a <? amt b))).

(** [Array.prototype.sort] reads the comparator's result through
    [ToNumber]. *)
Definition SortCompare (a b : UtxoEntryReference) : Js.Num :=
  Js.ToNumber (comparator a b).

(** [entries.sort(comparator)].  The sort is stable: an element moves
    behind another one only when the comparator says it is greater. *)
Fixpoint insert (x : UtxoEntryReference) (l : list UtxoEntryReference)
  : list UtxoEntryReference :=
  match l with
  | [] => [x]
  | y :: l' =>
      if Js.is_positive (SortCompare x y) then y :: insert x l'
      else x :: y :: l'
  end.

Fixpoint sort (l : list UtxoEntryReference) : list UtxoEntryReference :=
  match l with
  | [] => []
  | x :: l' => insert x (sort l')
  end.

Definition has_amount (v : N) (e : UtxoEntryReference) : bool :=
  amt e =? v.

Definition amount_le (a b : UtxoEntryReference) : Prop := amt a <= amt b.

End Utxo.

(* ===================================================================== *)
(** ** The transaction builder *)
(* ===================================================================== *)

Module Builder.
Import Utxo.

Inductive Result (E A : Type) : Type :=
| Ok (a : A)
| Err (e : E).
Arguments Ok {E A} a.
Arguments Err {E A} e.

Definition Address : Type := string.

Record Output : Type := {
  out_address : Address;
  value : N
}.

(** An input consumes a UTXO record or, in a chained transaction, the
    change output of the transaction at position [pred] of the Batch. *)
Inductive Input : Type :=
| Spend (r : UtxoEntryReference)
| SpendChange (pred : nat) (change : Output).

Definition input_amount (i : Input) : N :=
  match i with
  | Spend r => amt r
  | SpendChange _ c => value c
  end.

(** The builder's part of a PendingTransaction; signing status and the
    identifier assigned on submission belong to the pipeline. *)
Record PendingTransaction : Type := {
  inputs : list Input;
  outputs : list Output;
  fee : N;
  mass : N;
  predecessor : option nat
}.

Record Summary : Type := {
  fees : N;
  amountSent : N;
  transactionCount : nat;
  utxoCount : nat
}.

Inductive BuildError : Type :=
| InsufficientFunds
| TooManyOutputsForSingleTransaction
| AmountOverflow.

Definition Batch : Type := list PendingTransaction.

(** Amounts are unsigned 64-bit quantities. *)
Definition MAX_AMOUNT : N := 18446744073709551615.

Definition sum_utxos (l : list UtxoEntryReference) : N :=
  fold_right (fun e s => amt e + s) 0 l.

Definition sum_outputs (l : list Output) : N :=
  fold_right (fun o s => value o + s) 0 l.

Definition sum_inputs (l : list Input) : N :=
  fold_right (fun i s => input_amount i + s) 0 l.

Definition sum_fees (b : Batch) : N :=
  fold_right (fun tx s => fee tx + s) 0 b.

Definition pred_of (cur : list Input) : option nat :=
  match cur with
  | SpendChange p _ :: _ => Some p
  | _ => None
  end.

Section Build.

(** The mass estimator, the mass ceiling of one transaction and the dust
    threshold are configuration of the builder. *)
Variable ScriptClass : Type.
Variable script : ScriptClass.
Variable massOf : nat -> nat -> ScriptClass -> N.
Variable minFee : N -> N.
Variable maxMass : N.
Variable dustThreshold : N.

Section Request.

Variable requested : list Output.
Variable priorityFee : N.
Variable changeAddress : Address.

Definition target0 : N := sum_outputs requested + priorityFee.

(** Output count used for the estimate: the requested outputs and the
    change output. *)
Definition nout : nat := S (List.length requested).

(** Modelled from the spec: [createTransactions] is not part of the
    script; this is step 3 of the builder algorithm, closing the current
    transaction at the mass ceiling.  Its only output is a change output,
    and the transaction opened next spends that output first. *)
Definition close (closed : Batch) (cur : list Input) (acc : N)
  : Result BuildError (Batch * list Input * N) :=
  match cur with
  | [] => Err TooManyOutputsForSingleTransaction
  | _ :: _ =>
      let m := massOf (List.length cur) 1 script in
      let f := minFee m in
      if acc <=? f then Err InsufficientFunds
      else
        let change := {| out_address := changeAddress; value := acc - f |} in
        let tx := {| inputs := cur; outputs := [change]; fee := f;
                     mass := m; predecessor := pred_of cur |} in
        if maxMass <? massOf 2 nout script
        then Err TooManyOutputsForSingleTransaction
        else Ok (closed ++ [tx], [SpendChange (List.length closed) change], acc - f)
  end.

(** Modelled from the spec: [createTransactions] is not part of the
    script; this is step 4 of the builder algorithm.  A change above the
    dust threshold becomes a change output, a smaller one is absorbed by
    the fee. *)
Definition finalize (cur : list Input) (acc m f : N) : PendingTransaction :=
  let change := acc - target0 - f in
  if dustThreshold <? change then
    {| inputs := cur;
       outputs := requested ++ [{| out_address := changeAddress; value := change |}];
       fee := f + priorityFee;
       mass := m;
       predecessor := pred_of cur |}
  else
    {| inputs := cur;
       outputs := requested;
       fee := f + priorityFee + change;
       mass := m;
       predecessor := pred_of cur |}.

(** Modelled from the spec: [createTransactions] is not part of the
    script; this is step 2 of the builder algorithm.  Candidates are
    consumed in the order the caller arranged them; after each addition
    the fee is recomputed and coverage is checked. *)
Fixpoint select (cands : list UtxoEntryReference) (closed : Batch)
  (cur : list Input) (acc : N) (used : nat)
  : Result BuildError (Batch * nat) :=
  match cands with
  | [] => Err InsufficientFunds
  | u :: rest =>
      match (if maxMass <? massOf (S (List.length cur)) nout script
             then close closed cur acc
             else Ok (closed, cur, acc)) with
      | Err e => Err e
      | Ok (closed', cur', acc') =>
          let cur'' := cur' ++ [Spend u] in
          let acc'' := acc' + amt u in
          let m := massOf (List.length cur'') nout script in
          let f := minFee m in
          if target0 + f <=? acc''
          then Ok (closed' ++ [finalize cur'' acc'' m f], S used)
          else select rest closed' cur'' acc'' (S used)
      end
  end.

(** Modelled from the spec: [createTransactions] is not part of the
    script; this is the builder entry point
    [build(utxos, outputs, priorityFee, changeAddress)].  Funds are
    checked before anything is constructed, then the amounts are checked
    to fit the integer domain. *)
Definition build (utxos : list UtxoEntryReference)
  : Result BuildError (Batch * Summary) :=
  if sum_utxos utxos <? target0 then Err InsufficientFunds
  else if MAX_AMOUNT <? sum_utxos utxos then Err AmountOverflow
  else
    match select utxos [] [] 0 0%nat with
    | Err e => Err e
    | Ok (batch, used) =>
        Ok (batch,
            {| fees := sum_fees batch;
               amountSent := sum_outputs requested;
               transactionCount := List.length batch;
               utxoCount := used |})
    end.

End Request.
End Build.

(** Balance of one transaction within a bound [B] on its inputs. *)
Definition bal (B : N) (tx : PendingTransaction) : Prop :=
  sum_inputs (inputs tx) = sum_outputs (outputs tx) + fee tx /\
  sum_inputs (inputs tx) <= B.

(** A transaction is balanced when its inputs pay for its outputs and its
    fee exactly, within the integer domain. *)
Definition balanced (tx : PendingTransaction) : Prop :=
  sum_inputs (inputs tx) = sum_outputs (outputs tx) + fee tx /\
  sum_inputs (inputs tx) <= MAX_AMOUNT.

End Builder.

(* ===================================================================== *)
(** ** runDemo *)
(* ===================================================================== *)

Module Demo.
Import Utxo Builder.

Local Open Scope string_scope.
Local Open Scope list_scope.

(** Why an awaited promise rejected. *)
Inductive Error : Type :=
| RpcError (reason : string)
| BuildFailed (e : BuildError)
| SignatureError
| SubmissionError (reason : string).

Inductive Level : Type := LogLevel | InfoLevel | ErrorLevel.

(** Modelled from the spec: the status of a PendingTransaction lives in
    the object returned by [createTransactions], which is not part of the
    script; these are the states of the pipeline's state machine and of
    the error taxonomy. *)
Inductive Status : Type :=
| Built
| Signed
| Submitted
| Accepted
| Rejected
| DependencyCancelled
| Cancelled.

(** The argument object of [createTransactions] (lines 58-63). *)
Record Request : Type := {
  entries : list UtxoEntryReference;
  req_outputs : list (string * N);
  req_priorityFee : N;
  req_changeAddress : string
}.

(** What the script does to the outside, in program order.  [Console]
    carries the method used and the fixed text of the message (for a
    logged object, its name in the script).  [SignStart] and [SubmitStart]
    are the calls, [SignEnd] and [SubmitEnd] the moments the awaited
    promises settle ([true]: fulfilled).  [Mark] is an explicit status
    assignment by the caller. *)
Inductive Event : Type :=
| Console (lvl : Level) (msg : string)
| Connect
| GetUtxosByAddresses (addresses : list string)
| CreateTransactions (req : Request)
| SignStart (i : nat)
| SignEnd (i : nat) (ok : bool)
| SubmitStart (i : nat)
| SubmitEnd (i : nat) (ok : bool)
| Mark (i : nat) (s : Status)
| Disconnect.

(** The collaborators of one run: the command line, the key pair's
    address, the node and the SDK.  [sign] and [submit] answer for the
    transaction at a position of the Batch. *)
Record World : Type := {
  argv : list string;
  kaspaAddress : string;
  kaspaToSompi : Q -> N;
  connect : Result Error unit;
  getUtxosByAddresses : list string -> Result Error (list UtxoEntryReference);
  createTransactions : Request -> Result Error (Batch * Summary);
  sign : nat -> Result Error unit;
  submit : nat -> Result Error string
}.

(** Computations that extend the trace and either return or throw. *)
Definition M (A : Type) : Type := list Event -> list Event * Result Error A.

Definition ret {A} (a : A) : M A := fun t => (t, Ok a).

Definition bind {A B} (c : M A) (k : A -> M B) : M B :=
  fun t =>
    match c t with
    | (t', Ok a) => k a t'
    | (t', Err e) => (t', Err e)
    end.

Definition emit (e : Event) : M unit := fun t => (t ++ [e], Ok tt).

Definition throw {A} (e : Error) : M A := fun t => (t, Err e).

(** [await p] for a promise that has settled as [r]. *)
Definition await {A} (r : Result Error A) : M A :=
  match r with
  | Ok a => ret a
  | Err e => throw e
  end.

Notation "x <- c ;; k" := (bind c (fun x => k))
  (at level 61, c at next level, right associativity).
Notation "c ;; k" := (bind c (fun _ => k))
  (at level 61, right associativity).

Definition default_destination : string :=
  "kaspatest:qqkl0ct62rv6dz74pff2kx5sfyasl4z28uekevau23g877r5gt6userwyrmtt".

(** Line 19-20: [args.shift() || "kaspatest:..."]. *)
Definition destination (w : World) : string :=
  Js.or_string (hd_error (argv w)) default_destination.

(** Lines 58-63.  The entries have been sorted in place on line 56;
    [2 # 10] is the literal [0.2]. *)
Definition request (w : World) (es : list UtxoEntryReference) : Request :=
  {| entries := sort es;
     req_outputs := [(destination w, kaspaToSompi w (2 # 10)%Q)];
     req_priorityFee := 0%N;
     req_changeAddress := kaspaAddress w |}.

(** Line 70: [await pending.sign([sk])]. *)
Definition do_sign (w : World) (i : nat) : M unit :=
  emit (SignStart i) ;;
  match sign w i with
  | Ok _ => emit (SignEnd i true)
  | Err e => emit (SignEnd i false) ;; throw e
  end.

(** Line 72: [let txid = await pending.submit(rpc)]. *)
Definition do_submit (w : World) (i : nat) : M string :=
  emit (SubmitStart i) ;;
  match submit w i with
  | Ok txid => emit (SubmitEnd i true) ;; ret txid
  | Err e => emit (SubmitEnd i false) ;; throw e
  end.

(** Lines 67-74: [for (let pending of transactions) { ... }], from
    position [i] of the Batch on. *)
Fixpoint submit_all (w : World) (i : nat) (txs : Batch) : M unit :=
  match txs with
  | [] => ret tt
  | _ :: rest =>
      emit (Console LogLevel "pending transaction:") ;;
      emit (Console LogLevel "signing tx with secret key:") ;;
      do_sign w i ;;
      emit (Console LogLevel "submitting pending tx to RPC ...") ;;
      _ <- do_submit w i ;;
      emit (Console LogLevel "node responded with txid:") ;;
      submit_all w (S i) rest
  end.

(** Lines 18-78.  [rpc.disconnect()] on line 77 follows the conditional
    and is reached only when nothing before it has thrown. *)
Definition runDemo (w : World) : M unit :=
  emit (Console LogLevel "using destination address:") ;;
  emit (Console InfoLevel "Full kaspa address: ") ;;
  emit (Console InfoLevel "address") ;;
  emit (Console InfoLevel "xOnlyPublicKey") ;;
  emit (Console InfoLevel "publicKey") ;;
  emit (Console LogLevel "Connecting to ") ;;
  emit Connect ;;
  await (connect w) ;;
  emit (GetUtxosByAddresses [kaspaAddress w]) ;;
  es <- await (getUtxosByAddresses w [kaspaAddress w]) ;;
  match es with
  | [] => emit (Console ErrorLevel "No UTXOs found for address")
  | _ :: _ =>
      emit (Console InfoLevel "entries") ;;
      emit (CreateTransactions (request w es)) ;;
      r <- await (createTransactions w (request w es)) ;;
      emit (Console LogLevel "summary:") ;;
      submit_all w 0 (fst r)
  end ;;
  emit Disconnect.

Definition run (w : World) : list Event * Result Error unit := runDemo w [].

Definition trace (w : World) : list Event := fst (run w).

Definition outcome (w : World) : Result Error unit := snd (run w).

(** Modelled from the spec: the status of a PendingTransaction lives in
    the object returned by [createTransactions], which is not part of the
    script; this is the state machine
    [Built -> Signed -> Submitted -> Accepted | Rejected], read off the
    trace for the transaction at position [i]. *)
Definition step_status (i : nat) (s : Status) (e : Event) : Status :=
  match e with
  | SignEnd j true =>
      if Nat.eqb j i then match s with Built => Signed | _ => s end else s
  | SubmitStart j =>
      if Nat.eqb j i then match s with Signed => Submitted | _ => s end else s
  | SubmitEnd j true =>
      if Nat.eqb j i then match s with Submitted => Accepted | _ => s end else s
  | SubmitEnd j false =>
      if Nat.eqb j i then match s with Submitted => Rejected | _ => s end else s
  | Mark j st => if Nat.eqb j i then st else s
  | _ => s
  end.

Definition status_after (t : list Event) (i : nat) : Status :=
  fold_left (step_status i) t Built.

(** Modelled from the spec: the pipeline as the ordering contract words
    it; the script has no counterpart of the cancellation.  After a
    failure at position [i] every later transaction is marked
    [DependencyCancelled] and nothing more is signed or submitted. *)
Fixpoint cancel_from (i : nat) (txs : Batch) : M unit :=
  match txs with
  | [] => ret tt
  | _ :: rest => emit (Mark i DependencyCancelled) ;; cancel_from (S i) rest
  end.

Fixpoint pipeline_spec (w : World) (i : nat) (txs : Batch) : M unit :=
  match txs with
  | [] => ret tt
  | _ :: rest =>
      emit (SignStart i) ;;
      match sign w i with
      | Err _ => emit (SignEnd i false) ;; cancel_from (S i) rest
      | Ok _ =>
          emit (SignEnd i true) ;;
          emit (SubmitStart i) ;;
          match submit w i with
          | Err _ => emit (SubmitEnd i false) ;; cancel_from (S i) rest
          | Ok _ => emit (SubmitEnd i true) ;; pipeline_spec w (S i) rest
          end
      end
  end.

(** Events that begin work on the transaction at position [i]. *)
Definition starts (e : Event) (i : nat) : Prop :=
  e = SignStart i \/ e = SubmitStart i.

Definition is_start (e : Event) : bool :=
  match e with
  | SignStart _ | SubmitStart _ => true
  | _ => false
  end.

(** [quiet k e]: [e] neither disconnects nor assigns a status, and it
    concerns no transaction behind position [k]. *)
Definition quiet (k : nat) (e : Event) : bool :=
  match e with
  | Disconnect => false
  | Mark _ _ => false
  | SignStart j | SignEnd j _ | SubmitStart j | SubmitEnd j _ => Nat.leb j k
  | _ => true
  end.

(** Work on a transaction begins only after its predecessor's submission
    was acknowledged, and a transaction is submitted only after it was
    signed. *)
Definition ordered (t : list Event) : Prop :=
  forall t1 e t2, t = t1 ++ e :: t2 ->
    (forall i, starts e (S i) -> In (SubmitEnd i true) t1) /\
    (forall i, e = SubmitStart i -> In (SignEnd i true) t1).

Definition is_create (e : Event) : bool :=
  match e with
  | CreateTransactions _ => true
  | _ => false
  end.

End Demo.

(* ===================================================================== *)
(** ** Concrete runs *)
(* ===================================================================== *)

Module Examples.
Import Utxo Builder Demo.

Local Open Scope string_scope.
Local Open Scope list_scope.

Definition sender : string := "kaspatest:sender".

Definition entry (txid : string) (ix a : N) : UtxoEntryReference :=
  {| outpoint := {| transactionId := txid; index := ix |};
     utxoEntry := {| address := sender; amount := a;
                     blockDaaScore := 0; isCoinbase := false |} |}.

Definition u1 : UtxoEntryReference := entry "aa" 0 100000000.
Definition u2 : UtxoEntryReference := entry "bb" 1 100000000.
Definition u3 : UtxoEntryReference := entry "cc" 0 30000000.

(** A linear mass estimate and a fee of one sompi per unit of mass. *)
Definition mass1 (i o : nat) (_ : unit) : N :=
  1000 * N.of_nat i + 500 * N.of_nat o + 200.

Definition fee1 (m : N) : N := m.

Definition pay (d : string) (a : N) : Output :=
  {| out_address := d; value := a |}.

Definition build1 (ceiling : N) (os : list Output) (pf : N)
  (us : list UtxoEntryReference) : Result BuildError (Batch * Summary) :=
  build unit tt mass1 fee1 ceiling 1000 os pf sender us.

(** Three UTXOs, a ceiling that admits two inputs per transaction, and
    a payment that needs all three: the builder chains two transactions. *)
Definition chained : Result BuildError (Batch * Summary) :=
  build1 3300 [pay "kaspatest:dest" 150000000] 0 [u3; u1; u2].

Definition chained_batch : Batch :=
  Eval vm_compute in
    match chained with
    | Ok (b, _) => b
    | Err _ => []
    end.

Definition chained_summary : Summary :=
  Eval vm_compute in
    match chained with
    | Ok (_, s) => s
    | Err _ => {| fees := 0; amountSent := 0;
                  transactionCount := 0; utxoCount := 0 |}
    end.

Definition sompi (q : Q) : N :=
  Z.to_N ((Qnum q * 100000000) / Zpos (Qden q)).

Definition tx0 : PendingTransaction :=
  {| inputs := []; outputs := []; fee := 0; mass := 0; predecessor := None |}.

Definition no_summary : Summary :=
  {| fees := 0; amountSent := 0; transactionCount := 3; utxoCount := 0 |}.

(** A node that holds [us] for the sender and a Batch of three chained
    transactions; [sign_ok] and [submit_ok] say which positions succeed. *)
Definition world (args : list string) (us : list UtxoEntryReference)
  (sign_ok submit_ok : nat -> bool) : World :=
  {| argv := args;
     kaspaAddress := sender;
     kaspaToSompi := sompi;
     connect := Ok tt;
     getUtxosByAddresses := fun _ => Ok us;
     createTransactions := fun _ => Ok ([tx0; tx0; tx0], no_summary);
     sign := fun i => if sign_ok i then Ok tt else Err SignatureError;
     submit := fun i => if submit_ok i then Ok "txid"
                        else Err (SubmissionError "rejected") |}.

Definition always (_ : nat) : bool := true.

(** Submission of the second transaction fails. *)
Definition second_submit_fails : World :=
  world [] [u1] always (fun i => negb (Nat.eqb i 1)).

Definition all_succeed : World := world [] [u1] always always.

Definition no_utxos : World := world [] [] always always.

Definition empty_argument : World := world [EmptyString] [u1] always always.

Definition with_argument : World := world ["kaspatest:dest"] [u1] always always.

(** The run in which everything succeeds, cut at the call that signs the
    second transaction. *)
Definition before_second_sign : list Event :=
  firstn 21 (trace all_succeed).

Definition after_second_sign : list Event :=
  skipn 22 (trace all_succeed).

End Examples.

(* ===================================================================== *)
(** ** The shape of a run *)
(* ===================================================================== *)

Module Run.
Import Utxo Builder Demo.

Local Open Scope string_scope.
Local Open Scope list_scope.

Definition is_ok {E A : Type} (r : Result E A) : bool :=
  match r with
  | Ok _ => true
  | Err _ => false
  end.

(** The loop of lines 67-74 on its own, from position [i] on. *)
Definition loop (w : World) (i : nat) (txs : Batch)
  : list Event * Result Error unit :=
  submit_all w i txs [].

(** What a run has done when [rpc.connect()] settles (lines 21-46), when
    the node's answer arrives (line 48), when [createTransactions]
    settles (lines 53-63) and when the loop is entered (line 65). *)
Definition pre_connect : list Event :=
  [Console LogLevel "using destination address:";
   Console InfoLevel "Full kaspa address: ";
   Console InfoLevel "address";
   Console InfoLevel "xOnlyPublicKey";
   Console InfoLevel "publicKey";
   Console LogLevel "Connecting to ";
   Connect].

Definition pre_query (w : World) : list Event :=
  pre_connect ++ [GetUtxosByAddresses [kaspaAddress w]].

Definition pre_build (w : World) (es : list UtxoEntryReference)
  : list Event :=
  pre_query w ++ [Console InfoLevel "entries";
                  CreateTransactions (request w es)].

Definition pre_loop (w : World) (es : list UtxoEntryReference)
  : list Event :=
  pre_build w es ++ [Console LogLevel "summary:"].

(** One iteration of the loop: both awaits fulfilled, the signing
    rejected, the submission rejected. *)
Definition iteration (i : nat) : list Event :=
  [Console LogLevel "pending transaction:";
   Console LogLevel "signing tx with secret key:";
   SignStart i; SignEnd i true;
   Console LogLevel "submitting pending tx to RPC ...";
   SubmitStart i; SubmitEnd i true;
   Console LogLevel "node responded with txid:"].

Definition sign_rejected (i : nat) : list Event :=
  [Console LogLevel "pending transaction:";
   Console LogLevel "signing tx with secret key:";
   SignStart i; SignEnd i false].

Definition submit_rejected (i : nat) : list Event :=
  [Console LogLevel "pending transaction:";
   Console LogLevel "signing tx with secret key:";
   SignStart i; SignEnd i true;
   Console LogLevel "submitting pending tx to RPC ...";
   SubmitStart i; SubmitEnd i false].

(** Signing and submission both succeed at the [n] positions from [i]. *)
Definition all_ok (w : World) (i n : nat) : bool :=
  forallb (fun k => is_ok (sign w k) && is_ok (submit w k)) (seq i n).

(** The calls and settlements of a Batch of [n] transactions that goes
    through completely. *)
Definition schedule_one (i : nat) : list Event :=
  [SignStart i; SignEnd i true; SubmitStart i; SubmitEnd i true].

Definition schedule (i n : nat) : list Event :=
  flat_map schedule_one (seq i n).

Definition is_pipeline (e : Event) : bool :=
  match e with
  | SignStart _ | SignEnd _ _ | SubmitStart _ | SubmitEnd _ _ => true
  | _ => false
  end.

Definition is_sign_start (j : nat) (e : Event) : bool :=
  match e with
  | SignStart i => Nat.eqb i j
  | _ => false
  end.

Definition is_submit_start (j : nat) (e : Event) : bool :=
  match e with
  | SubmitStart i => Nat.eqb i j
  | _ => false
  end.

Definition is_connect (e : Event) : bool :=
  match e with
  | Connect => true
  | _ => false
  end.

Definition is_query (e : Event) : bool :=
  match e with
  | GetUtxosByAddresses _ => true
  | _ => false
  end.

Definition is_disconnect (e : Event) : bool :=
  match e with
  | Disconnect => true
  | _ => false
  end.

(** The events the loop can produce: [console.log] lines and the calls
    on the pending transaction. *)
Definition loop_event (e : Event) : bool :=
  match e with
  | Console LogLevel _ => true
  | SignStart _ | SignEnd _ _ | SubmitStart _ | SubmitEnd _ _ => true
  | _ => false
  end.

Definition count (p : Event -> bool) (t : list Event) : nat :=
  List.length (filter p t).

(** How a run ends, by the first collaborator that rejects. *)
Inductive Shape (w : World) : Prop :=
| ConnectRejected (e : Error)
    (Hc : connect w = Err e)
    (Hr : run w = (pre_connect, Err e))
| QueryRejected (e : Error)
    (Hc : connect w = Ok tt)
    (Hq : getUtxosByAddresses w [kaspaAddress w] = Err e)
    (Hr : run w = (pre_query w, Err e))
| NoUtxos
    (Hc : connect w = Ok tt)
    (Hq : getUtxosByAddresses w [kaspaAddress w] = Ok [])
    (Hr : run w = (pre_query w
                     ++ [Console ErrorLevel "No UTXOs found for address";
                         Disconnect], Ok tt))
| BuildRejected (es : list UtxoEntryReference) (e : Error)
    (Hc : connect w = Ok tt)
    (Hq : getUtxosByAddresses w [kaspaAddress w] = Ok es)
    (Hes : es <> [])
    (Hb : createTransactions w (request w es) = Err e)
    (Hr : run w = (pre_build w es, Err e))
| LoopRejected (es : list UtxoEntryReference) (b : Batch) (s : Summary)
    (e : Error)
    (Hc : connect w = Ok tt)
    (Hq : getUtxosByAddresses w [kaspaAddress w] = Ok es)
    (Hes : es <> [])
    (Hb : createTransactions w (request w es) = Ok (b, s))
    (Hl : snd (loop w 0 b) = Err e)
    (Hr : run w = (pre_loop w es ++ fst (loop w 0 b), Err e))
| Completed (es : list UtxoEntryReference) (b : Batch) (s : Summary)
    (Hc : connect w = Ok tt)
    (Hq : getUtxosByAddresses w [kaspaAddress w] = Ok es)
    (Hes : es <> [])
    (Hb : createTransactions w (request w es) = Ok (b, s))
    (Hl : snd (loop w 0 b) = Ok tt)
    (Hr : run w = (pre_loop w es ++ fst (loop w 0 b) ++ [Disconnect], Ok tt)).

End Run.

(* ===================================================================== *)
(** ** What a Batch spends *)
(* ===================================================================== *)

Module Selection.
Import Utxo Builder.

(** The UTXO records among the inputs of a transaction, in input order;
    the change output of a predecessor is not one of them. *)
Definition utxos_of (l : list Input) : list UtxoEntryReference :=
  flat_map (fun i => match i with
                     | Spend r => [r]
                     | SpendChange _ _ => []
                     end) l.

(** The UTXO records a Batch spends, in Batch order. *)
Definition spent (b : Batch) : list UtxoEntryReference :=
  flat_map (fun tx => utxos_of (inputs tx)) b.

End Selection.

(* ===================================================================== *)
(** ** The comparator and the sort *)
(* ===================================================================== *)

Module UtxoFacts.
Import Utxo.

Lemma SortCompare_cases (a b : UtxoEntryReference) :
  (amt b < amt a /\ comparator a b = Js.Bool true) \/
  (amt a < amt b /\ comparator a b = Js.Number (Js.Int (-1))) \/
  (amt a = amt b /\ comparator a b = Js.Number Js.NegZero).
Proof.
  unfold comparator.
  destruct (N.ltb_spec (amt b) (amt a)) as [Hba | Hba].
  - left. split; [assumption | reflexivity].
  - destruct (N.ltb_spec (amt a) (amt b)) as [Hab | Hab].
    + right; left. split; [assumption | reflexivity].
    + right; right. split; [lia | reflexivity].
Qed.

Lemma is_positive_SortCompare (a b : UtxoEntryReference) :
  Js.is_positive (SortCompare a b) = (amt b <? amt a).
Proof.
  unfold SortCompare.
  destruct (SortCompare_cases a b) as [[H E] | [[H E] | [H E]]];
    rewrite E; simpl; symmetry.
  - apply N.ltb_lt; assumption.
  - apply N.ltb_ge; lia.
  - apply N.ltb_ge; lia.
Qed.

Lemma insert_perm (x : UtxoEntryReference) (l : list UtxoEntryReference) :
  Permutation (x :: l) (insert x l).
Proof.
  induction l as [| y l IH]; simpl.
  - apply Permutation_refl.
  - destruct (Js.is_positive (SortCompare x y)).
    + eapply perm_trans; [apply perm_swap |].
      apply perm_skip; exact IH.
    + apply Permutation_refl.
Qed.

Lemma sort_perm (l : list UtxoEntryReference) : Permutation l (sort l).
Proof.
  induction l as [| x l IH]; simpl.
  - constructor.
  - eapply perm_trans; [apply perm_skip; exact IH | apply insert_perm].
Qed.

Lemma insert_sorted (x : UtxoEntryReference) (l : list UtxoEntryReference) :
  StronglySorted amount_le l -> StronglySorted amount_le (insert x l).
Proof.
  induction 1 as [| y l Hl IH Hy]; simpl.
  - repeat constructor.
  - rewrite is_positive_SortCompare.
    destruct (N.ltb_spec (amt y) (amt x)) as [Hlt | Hge].
    + constructor; [exact IH |].
      apply (Permutation_Forall (insert_perm x l)).
      constructor; [unfold amount_le; lia | exact Hy].
    + constructor; [constructor; assumption |].
      constructor; [exact Hge |].
      eapply Forall_impl; [| exact Hy].
      unfold amount_le; intros; lia.
Qed.

Lemma sort_sorted (l : list UtxoEntryReference) :
  StronglySorted amount_le (sort l).
Proof.
  induction l as [| x l IH]; simpl.
  - constructor.
  - apply insert_sorted; exact IH.
Qed.

Lemma insert_filter (v : N) (x : UtxoEntryReference)
  (l : list UtxoEntryReference) :
  filter (has_amount v) (insert x l) = filter (has_amount v) (x :: l).
Proof.
  induction l as [| y l IH]; simpl.
  - reflexivity.
  - rewrite is_positive_SortCompare.
    destruct (N.ltb_spec (amt y) (amt x)) as [Hlt | Hge]; [| reflexivity].
    simpl. rewrite IH. simpl. unfold has_amount.
    destruct (N.eqb_spec (amt x) v) as [Ex | Nx];
      destruct (N.eqb_spec (amt y) v) as [Ey | Ny];
      try reflexivity; lia.
Qed.

Lemma sort_filter (v : N) (l : list UtxoEntryReference) :
  filter (has_amount v) (sort l) = filter (has_amount v) l.
Proof.
  induction l as [| x l IH]; simpl sort.
  - reflexivity.
  - rewrite insert_filter. simpl. rewrite IH. reflexivity.
Qed.

(** Two strictly increasing arrangements of the same records coincide. *)
Lemma strictly_sorted_unique (l1 l2 : list UtxoEntryReference) :
  StronglySorted (fun a b => amt a < amt b) l1 ->
  StronglySorted (fun a b => amt a < amt b) l2 ->
  Permutation l1 l2 -> l1 = l2.
Proof.
  intros H1; revert l2.
  induction H1 as [| a l1 Hs1 IH Ha]; intros l2 H2 HP.
  - apply Permutation_nil in HP; subst; reflexivity.
  - destruct H2 as [| b l2 Hs2 Hb].
    + apply Permutation_sym, Permutation_nil in HP; discriminate.
    + assert (a = b) as ->.
      { assert (In a (b :: l2)) as Ia
          by (eapply Permutation_in; [exact HP | left; reflexivity]).
        assert (In b (a :: l1)) as Ib
          by (eapply Permutation_in;
              [apply Permutation_sym; exact HP | left; reflexivity]).
        destruct Ia as [-> | Ia]; [reflexivity |].
        destruct Ib as [-> | Ib]; [reflexivity |].
        rewrite Forall_forall in Ha, Hb.
        specialize (Ha _ Ib). specialize (Hb _ Ia). lia. }
      f_equal. apply IH; [exact Hs2 |].
      eapply Permutation_cons_inv; exact HP.
Qed.

Lemma sorted_nodup_strict (l : list UtxoEntryReference) :
  StronglySorted amount_le l -> NoDup (map amt l) ->
  StronglySorted (fun a b => amt a < amt b) l.
Proof.
  induction 1 as [| a l Hs IH Ha]; intros Hnd; simpl in Hnd.
  - constructor.
  - inversion Hnd as [| ? ? Hnotin Hnd']; subst.
    constructor; [apply IH; exact Hnd' |].
    rewrite Forall_forall in *. intros y Hy.
    specialize (Ha _ Hy). unfold amount_le in Ha.
    assert (amt a <> amt y).
    { intros E. apply Hnotin. rewrite E. apply in_map; exact Hy. }
    lia.
Qed.

Lemma sort_distinct_amounts (l1 l2 : list UtxoEntryReference) :
  Permutation l1 l2 -> NoDup (map amt l1) -> sort l1 = sort l2.
Proof.
  intros HP Hnd.
  assert (Permutation (sort l1) (sort l2)) as HPs.
  { eapply perm_trans; [apply Permutation_sym, sort_perm |].
    eapply perm_trans; [exact HP | apply sort_perm]. }
  apply strictly_sorted_unique; [| | exact HPs].
  - apply sorted_nodup_strict; [apply sort_sorted |].
    eapply Permutation_NoDup; [| exact Hnd].
    apply Permutation_map, sort_perm.
  - apply sorted_nodup_strict; [apply sort_sorted |].
    eapply Permutation_NoDup; [| exact Hnd].
    apply Permutation_map.
    eapply perm_trans; [exact HP | apply sort_perm].
Qed.

Lemma filter_has_amount_head (a : UtxoEntryReference)
  (l : list UtxoEntryReference) :
  filter (has_amount (amt a)) (a :: l) = a :: filter (has_amount (amt a)) l.
Proof.
  simpl. unfold has_amount at 1. rewrite N.eqb_refl. reflexivity.
Qed.

Lemma sorted_head_least (a x : UtxoEntryReference)
  (l : list UtxoEntryReference) (v : N) :
  StronglySorted amount_le (a :: l) ->
  In x (filter (has_amount v) (a :: l)) -> amt a <= v.
Proof.
  intros Hs Hin. apply filter_In in Hin. destruct Hin as [Hin Hv].
  unfold has_amount in Hv. apply N.eqb_eq in Hv. subst v.
  inversion Hs as [| ? ? _ Ha]; subst.
  destruct Hin as [-> | Hin]; [lia |].
  rewrite Forall_forall in Ha. apply Ha; exact Hin.
Qed.

(** The result of a stable sort does not depend on the algorithm: two
    arrangements in non-decreasing amount that list the entries of each
    amount in the same order are the same arrangement. *)
Lemma stable_arrangement_unique (l1 : list UtxoEntryReference) :
  forall l2,
    StronglySorted amount_le l1 -> StronglySorted amount_le l2 ->
    (forall v, filter (has_amount v) l1 = filter (has_amount v) l2) ->
    l1 = l2.
Proof.
  induction l1 as [| a l1 IH]; intros l2 H1 H2 Hf.
  - destruct l2 as [| b l2]; [reflexivity |].
    specialize (Hf (amt b)). rewrite filter_has_amount_head in Hf.
    discriminate.
  - destruct l2 as [| b l2].
    + specialize (Hf (amt a)). rewrite filter_has_amount_head in Hf.
      discriminate.
    + assert (amt a = amt b) as Eab.
      { assert (amt a <= amt b).
        { apply (sorted_head_least a b l1 (amt b) H1).
          rewrite Hf, filter_has_amount_head. left; reflexivity. }
        assert (amt b <= amt a).
        { apply (sorted_head_least b a l2 (amt a) H2).
          rewrite <- Hf, filter_has_amount_head. left; reflexivity. }
        lia. }
      assert (a = b) as ->.
      { pose proof (Hf (amt a)) as Hfa.
        rewrite filter_has_amount_head in Hfa.
        rewrite Eab in Hfa at 2. rewrite filter_has_amount_head in Hfa.
        inversion Hfa; reflexivity. }
      f_equal. apply IH.
      * inversion H1; assumption.
      * inversion H2; assumption.
      * intros v. specialize (Hf v). simpl in Hf.
        destruct (has_amount v b); [inversion Hf |]; auto.
Qed.

Lemma sort_is_the_stable_arrangement (l l' : list UtxoEntryReference) :
  StronglySorted amount_le l' ->
  (forall v, filter (has_amount v) l' = filter (has_amount v) l) ->
  l' = sort l.
Proof.
  intros Hs Hf. apply stable_arrangement_unique;
    [exact Hs | apply sort_sorted |].
  intros v. rewrite sort_filter. apply Hf.
Qed.

(** C8.  On any two entries the comparator of line 56 yields [true]
    (read by the sort as the positive number 1) exactly when the first
    amount is the greater, the number -1 exactly when it is the smaller, and
    negative zero (read as zero) exactly when the amounts are equal.
    Consequently [entries.sort] arranges any array of entries in
    non-decreasing amount, keeps every entry, and leaves entries of equal
    amount in their original relative order: no outpoint tie-break is
    applied. *)
Theorem comparator_sort_by_amount :
  (forall a b : UtxoEntryReference,
      (comparator a b = Js.Bool true <-> amt b < amt a) /\
      (Js.is_positive (SortCompare a b) = true <-> amt b < amt a) /\
      (comparator a b = Js.Number (Js.Int (-1)) <-> amt a < amt b) /\
      (Js.is_negative (SortCompare a b) = true <-> amt a < amt b) /\
      (comparator a b = Js.Number Js.NegZero <-> amt a = amt b) /\
      (Js.is_zero (SortCompare a b) = true <-> amt a = amt b)) /\
  (forall l : list UtxoEntryReference,
      StronglySorted amount_le (sort l) /\
      Permutation l (sort l) /\
      (forall v, filter (has_amount v) (sort l) = filter (has_amount v) l)).
Proof.
  split.
  - intros a b. unfold SortCompare.
    destruct (SortCompare_cases a b) as [[H E] | [[H E] | [H E]]];
      rewrite E; simpl;
      repeat split; intros; try assumption; try reflexivity;
      try discriminate; try lia.
  - intros l. split; [apply sort_sorted |].
    split; [apply sort_perm |].
    intros v; apply sort_filter.
Qed.

End UtxoFacts.

(* ===================================================================== *)
(** ** The builder's invariants *)
(* ===================================================================== *)

Module BuilderFacts.
Import Utxo Builder.

Lemma sum_inputs_app (l1 l2 : list Input) :
  sum_inputs (l1 ++ l2) = sum_inputs l1 + sum_inputs l2.
Proof.
  induction l1 as [| i l1 IH]; simpl; [reflexivity | rewrite IH; lia].
Qed.

Lemma sum_outputs_app (l1 l2 : list Output) :
  sum_outputs (l1 ++ l2) = sum_outputs l1 + sum_outputs l2.
Proof.
  induction l1 as [| o l1 IH]; simpl; [reflexivity | rewrite IH; lia].
Qed.

Section Invariants.

Variable ScriptClass : Type.
Variable script : ScriptClass.
Variable massOf : nat -> nat -> ScriptClass -> N.
Variable minFee : N -> N.
Variable maxMass : N.
Variable dustThreshold : N.
Variable requested : list Output.
Variable priorityFee : N.
Variable changeAddress : Address.

Local Abbreviation close' :=
  (close ScriptClass script massOf minFee maxMass requested changeAddress).
Local Abbreviation finalize' :=
  (finalize dustThreshold requested priorityFee changeAddress).
Local Abbreviation select' :=
  (select ScriptClass script massOf minFee maxMass dustThreshold
          requested priorityFee changeAddress).
Local Abbreviation target := (target0 requested priorityFee).

Lemma close_balanced (B : N) (closed : Batch) (cur : list Input) (acc : N)
  (closed2 : Batch) (cur2 : list Input) (acc2 : N) :
  close' closed cur acc = Ok (closed2, cur2, acc2) ->
  Forall (bal B) closed -> acc = sum_inputs cur -> acc <= B ->
  Forall (bal B) closed2 /\ acc2 = sum_inputs cur2 /\ acc2 <= acc.
Proof.
  unfold close', close. intros H Hc Hacc HB.
  destruct cur as [| i cur]; [discriminate |].
  set (f := minFee (massOf (List.length (i :: cur)) 1 script)) in *.
  destruct (N.leb_spec acc f) as [Hle | Hlt]; [discriminate |].
  destruct (maxMass <? massOf 2 (nout requested) script); [discriminate |].
  inversion H; subst closed2 cur2 acc2; clear H.
  split; [| split].
  - apply Forall_app; split; [exact Hc |].
    constructor; [| constructor].
    unfold bal; simpl inputs; simpl outputs; simpl fee.
    rewrite <- Hacc. simpl. split; lia.
  - simpl. lia.
  - lia.
Qed.

Lemma finalize_balanced (B : N) (cur : list Input) (acc m f : N) :
  target + f <= acc -> acc = sum_inputs cur -> acc <= B ->
  bal B (finalize' cur acc m f).
Proof.
  unfold finalize', finalize, target, bal. intros Hcov Hacc HB.
  fold (target0 requested priorityFee).
  destruct (dustThreshold <? acc - target0 requested priorityFee - f);
    simpl inputs; simpl outputs; simpl fee; rewrite <- Hacc.
  - rewrite sum_outputs_app. simpl. unfold target0 in *. split; lia.
  - unfold target0 in *. split; lia.
Qed.

Lemma select_balanced (B : N) (cands : list UtxoEntryReference) :
  forall (closed : Batch) (cur : list Input) (acc : N) (used : nat)
         (batch : Batch) (n : nat),
    select' cands closed cur acc used = Ok (batch, n) ->
    Forall (bal B) closed -> acc = sum_inputs cur ->
    acc + sum_utxos cands <= B ->
    Forall (bal B) batch.
Proof.
  induction cands as [| u rest IH]; intros closed cur acc used batch n H Hc Hacc HB.
  - discriminate.
  - unfold select' in H. simpl in H. simpl in HB.
    fold close' in H. fold select' in H. fold finalize' in H.
    assert (exists closed2 cur2 acc2,
               (if maxMass <? massOf (S (List.length cur)) (nout requested) script
                then close' closed cur acc else Ok (closed, cur, acc))
               = Ok (closed2, cur2, acc2) /\
               Forall (bal B) closed2 /\ acc2 = sum_inputs cur2 /\ acc2 <= acc)
      as (closed2 & cur2 & acc2 & E & Hc2 & Hacc2 & Hle).
    { destruct (maxMass <? massOf (S (List.length cur)) (nout requested) script).
      - destruct (close' closed cur acc) as [[[c2 k2] a2] | e] eqn:Ecl;
          [| discriminate].
        exists c2, k2, a2. split; [reflexivity |].
        eapply close_balanced; eauto. lia.
      - exists closed, cur, acc. repeat split; auto. lia. }
    rewrite E in H.
    fold (target0 requested priorityFee) in H. fold target in H.
    set (f := minFee (massOf (List.length (cur2 ++ [Spend u])) (nout requested) script)) in *.
    assert (acc2 + amt u = sum_inputs (cur2 ++ [Spend u])) as Hsum
      by (rewrite sum_inputs_app; simpl; lia).
    destruct (N.leb_spec (target + f) (acc2 + amt u)) as [Hcov | Hno].
    + inversion H; subst batch n; clear H.
      apply Forall_app; split; [exact Hc2 |].
      constructor; [| constructor].
      apply finalize_balanced; [exact Hcov | exact Hsum | lia].
    + eapply IH; [exact H | exact Hc2 | exact Hsum | lia].
Qed.

End Invariants.

(** C1.  Every transaction of a Batch returned by a successful [build] is
    balanced: the amounts of its inputs add up to the amounts of its
    outputs plus its fee, exactly, and the sums stay within the unsigned
    64-bit domain. *)
Theorem build_balanced
  (ScriptClass : Type) (script : ScriptClass)
  (massOf : nat -> nat -> ScriptClass -> N) (minFee : N -> N)
  (maxMass dustThreshold : N)
  (requested : list Output) (priorityFee : N) (changeAddress : Address)
  (utxos : list UtxoEntryReference) (batch : Batch) (summary : Summary) :
  build ScriptClass script massOf minFee maxMass dustThreshold
        requested priorityFee changeAddress utxos = Ok (batch, summary) ->
  Forall balanced batch.
Proof.
  unfold build. intros H.
  destruct (sum_utxos utxos <? target0 requested priorityFee); [discriminate |].
  destruct (N.ltb_spec MAX_AMOUNT (sum_utxos utxos)) as [Hov | Hfit];
    [discriminate |].
  destruct (select ScriptClass script massOf minFee maxMass dustThreshold
                   requested priorityFee changeAddress utxos [] [] 0 0%nat)
    as [[b n] | e] eqn:Esel; [| discriminate].
  inversion H; subst batch summary; clear H.
  eapply (select_balanced _ _ _ _ _ _ _ _ _ MAX_AMOUNT) in Esel.
  - exact Esel.
  - constructor.
  - reflexivity.
  - simpl. exact Hfit.
Qed.

(** C5.  When the UTXOs add up to less than the requested outputs plus the
    priority fee, [build] fails with [InsufficientFunds]; this is decided
    before selection starts, so the result carries no transaction. *)
Theorem build_insufficient_funds
  (ScriptClass : Type) (script : ScriptClass)
  (massOf : nat -> nat -> ScriptClass -> N) (minFee : N -> N)
  (maxMass dustThreshold : N)
  (requested : list Output) (priorityFee : N) (changeAddress : Address)
  (utxos : list UtxoEntryReference) :
  sum_utxos utxos < sum_outputs requested + priorityFee ->
  build ScriptClass script massOf minFee maxMass dustThreshold
        requested priorityFee changeAddress utxos = Err InsufficientFunds.
Proof.
  intros H. unfold build, target0.
  destruct (N.ltb_spec (sum_utxos utxos) (sum_outputs requested + priorityFee))
    as [_ | Hge]; [reflexivity | lia].
Qed.

End BuilderFacts.

Lemma build_balanced_witness :
  Examples.chained = Builder.Ok (Examples.chained_batch, Examples.chained_summary) /\
  Forall Builder.balanced Examples.chained_batch.
Proof.
  split.
  - vm_compute. reflexivity.
  - apply (BuilderFacts.build_balanced unit tt Examples.mass1 Examples.fee1
             3300 1000 [Examples.pay "kaspatest:dest" 150000000] 0
             Examples.sender [Examples.u3; Examples.u1; Examples.u2]
             Examples.chained_batch Examples.chained_summary).
    vm_compute. reflexivity.
Defined.

Lemma build_insufficient_funds_witness :
  Examples.build1 100000 [Examples.pay "kaspatest:dest" 50000000] 0 [Examples.u3]
  = Builder.Err Builder.InsufficientFunds.
Proof.
  apply (BuilderFacts.build_insufficient_funds unit tt Examples.mass1
           Examples.fee1 100000 1000
           [Examples.pay "kaspatest:dest" 50000000] 0 Examples.sender
           [Examples.u3]).
  vm_compute. reflexivity.
Defined.

(* ===================================================================== *)
(** ** Selection order *)
(* ===================================================================== *)

Module SelectionFacts.
Import Utxo Builder Selection.

Lemma utxos_of_app (l1 l2 : list Input) :
  utxos_of (l1 ++ l2) = utxos_of l1 ++ utxos_of l2.
Proof. unfold utxos_of. apply flat_map_app. Qed.

Lemma spent_app (b1 b2 : Batch) : spent (b1 ++ b2) = spent b1 ++ spent b2.
Proof. unfold spent. apply flat_map_app. Qed.

Section Consumption.

Variable ScriptClass : Type.
Variable script : ScriptClass.
Variable massOf : nat -> nat -> ScriptClass -> N.
Variable minFee : N -> N.
Variable maxMass : N.
Variable dustThreshold : N.
Variable requested : list Output.
Variable priorityFee : N.
Variable changeAddress : Address.

(** Closing a transaction at the mass ceiling loses no spent record and
    adds none. *)
Lemma close_spent (closed : Batch) (cur : list Input) (acc : N)
  (closed2 : Batch) (cur2 : list Input) (acc2 : N) :
  close ScriptClass script massOf minFee maxMass requested changeAddress
        closed cur acc = Ok (closed2, cur2, acc2) ->
  spent closed2 ++ utxos_of cur2 = spent closed ++ utxos_of cur.
Proof.
  unfold close. intros H.
  destruct cur as [| i cur]; [discriminate |].
  destruct (acc <=? minFee (massOf (List.length (i :: cur)) 1 script));
    [discriminate |].
  destruct (maxMass <? massOf 2 (nout requested) script); [discriminate |].
  inversion H; subst closed2 cur2 acc2; clear H.
  rewrite spent_app. unfold spent at 2. simpl.
  rewrite !app_nil_r. reflexivity.
Qed.

Lemma finalize_inputs (cur : list Input) (acc m f : N) :
  inputs (finalize dustThreshold requested priorityFee changeAddress
                   cur acc m f) = cur.
Proof.
  unfold finalize.
  destruct (dustThreshold <? acc - target0 requested priorityFee - f);
    reflexivity.
Qed.

(** The builder consumes its candidates front to back. *)
Lemma select_consumes (cands : list UtxoEntryReference) :
  forall (closed : Batch) (cur : list Input) (acc : N) (used : nat)
         (batch : Batch) (n : nat),
    select ScriptClass script massOf minFee maxMass dustThreshold
           requested priorityFee changeAddress cands closed cur acc used
    = Ok (batch, n) ->
    exists k,
      (k <= List.length cands)%nat /\
      n = (used + k)%nat /\
      spent batch = (spent closed ++ utxos_of cur) ++ firstn k cands.
Proof.
  induction cands as [| u rest IH]; intros closed cur acc used batch n H.
  - discriminate.
  - simpl in H.
    assert (exists closed2 cur2 acc2,
               (if maxMass <? massOf (S (List.length cur)) (nout requested) script
                then close ScriptClass script massOf minFee maxMass requested
                           changeAddress closed cur acc
                else Ok (closed, cur, acc))
               = Ok (closed2, cur2, acc2) /\
               spent closed2 ++ utxos_of cur2 = spent closed ++ utxos_of cur)
      as (closed2 & cur2 & acc2 & E & Hsp).
    { destruct (maxMass <? massOf (S (List.length cur)) (nout requested) script).
      - destruct (close ScriptClass script massOf minFee maxMass requested
                        changeAddress closed cur acc)
          as [[[c2 k2] a2] | e] eqn:Ecl; [| discriminate].
        exists c2, k2, a2. split; [reflexivity |].
        eapply close_spent; exact Ecl.
      - exists closed, cur, acc. split; reflexivity. }
    rewrite E in H. rewrite <- Hsp.
    destruct (target0 requested priorityFee
              + minFee (massOf (List.length (cur2 ++ [Spend u]))
                               (nout requested) script)
              <=? acc2 + amt u).
    + inversion H; subst batch n; clear H.
      exists 1%nat. split; [simpl; lia |]. split; [lia |].
      rewrite spent_app. unfold spent at 2. simpl.
      rewrite finalize_inputs, utxos_of_app, app_nil_r. simpl.
      rewrite <- !app_assoc. reflexivity.
    + destruct (IH _ _ _ _ _ _ H) as (k & Hk & Hn & Hs).
      exists (S k). split; [simpl; lia |]. split; [lia |].
      rewrite Hs, utxos_of_app. simpl.
      rewrite <- !app_assoc. reflexivity.
Qed.

Lemma build_consumes (utxos : list UtxoEntryReference) (batch : Batch)
  (summary : Summary) :
  build ScriptClass script massOf minFee maxMass dustThreshold
        requested priorityFee changeAddress utxos = Ok (batch, summary) ->
  spent batch = firstn (utxoCount summary) utxos.
Proof.
  unfold build. intros H.
  destruct (sum_utxos utxos <? target0 requested priorityFee); [discriminate |].
  destruct (MAX_AMOUNT <? sum_utxos utxos); [discriminate |].
  destruct (select ScriptClass script massOf minFee maxMass dustThreshold
                   requested priorityFee changeAddress utxos [] [] 0 0%nat)
    as [[b n] | e] eqn:Esel; [| discriminate].
  inversion H; subst batch summary; clear H.
  destruct (select_consumes _ _ _ _ _ _ _ Esel) as (k & _ & Hn & Hs).
  simpl in Hn, Hs. subst n. exact Hs.
Qed.

End Consumption.

(** C3, as the code has it.  The selection order is a function of the
    enumerated sequence, not of the set.  For two enumerations of the same
    records:
    - the sort keeps the records of each amount in their enumeration
      order (no tie-break by outpoint);
    - the sorted sequences coincide exactly when the two enumerations list
      the records of each amount in the same relative order;
    - in particular they coincide, and [build] gives the same result,
      when no two records carry the same amount;
    - a successful [build] spends the sorted records front to back: the
      records its Batch spends are the first [utxoCount] of them, in that
      order. *)
Theorem selection_follows_enumeration
  (ScriptClass : Type) (script : ScriptClass)
  (massOf : nat -> nat -> ScriptClass -> N) (minFee : N -> N)
  (maxMass dustThreshold : N)
  (requested : list Output) (priorityFee : N) (changeAddress : Address)
  (U1 U2 : list UtxoEntryReference) :
  Permutation U1 U2 ->
  (forall v, filter (has_amount v) (sort U1) = filter (has_amount v) U1) /\
  (sort U1 = sort U2 <->
   forall v, filter (has_amount v) U1 = filter (has_amount v) U2) /\
  (NoDup (map amt U1) ->
   sort U1 = sort U2 /\
   build ScriptClass script massOf minFee maxMass dustThreshold
         requested priorityFee changeAddress (sort U1)
   = build ScriptClass script massOf minFee maxMass dustThreshold
           requested priorityFee changeAddress (sort U2)) /\
  (forall batch summary,
      build ScriptClass script massOf minFee maxMass dustThreshold
            requested priorityFee changeAddress (sort U1)
      = Ok (batch, summary) ->
      spent batch = firstn (utxoCount summary) (sort U1)).
Proof.
  intros HP.
  split; [intros v; apply UtxoFacts.sort_filter |].
  split; [| split].
  - split.
    + intros E v.
      rewrite <- (UtxoFacts.sort_filter v U1), <- (UtxoFacts.sort_filter v U2), E.
      reflexivity.
    + intros Hf. apply UtxoFacts.stable_arrangement_unique;
        [apply UtxoFacts.sort_sorted | apply UtxoFacts.sort_sorted |].
      intros v. rewrite !UtxoFacts.sort_filter. apply Hf.
  - intros Hnd.
    assert (sort U1 = sort U2) as E
      by (apply UtxoFacts.sort_distinct_amounts; assumption).
    split; [exact E | rewrite E; reflexivity].
  - intros batch summary H. eapply build_consumes; exact H.
Qed.

End SelectionFacts.

Lemma selection_follows_enumeration_witness :
  (forall v,
      filter (Utxo.has_amount v)
             (Utxo.sort [Examples.u1; Examples.u3; Examples.u2])
      = filter (Utxo.has_amount v) [Examples.u1; Examples.u3; Examples.u2]) /\
  (Utxo.sort [Examples.u1; Examples.u3; Examples.u2]
   = Utxo.sort [Examples.u3; Examples.u1; Examples.u2] <->
   forall v,
     filter (Utxo.has_amount v) [Examples.u1; Examples.u3; Examples.u2]
     = filter (Utxo.has_amount v) [Examples.u3; Examples.u1; Examples.u2]) /\
  (NoDup (map Utxo.amt [Examples.u1; Examples.u3; Examples.u2]) ->
   Utxo.sort [Examples.u1; Examples.u3; Examples.u2]
   = Utxo.sort [Examples.u3; Examples.u1; Examples.u2] /\
   Examples.build1 3300 [Examples.pay "kaspatest:dest" 150000000] 0
     (Utxo.sort [Examples.u1; Examples.u3; Examples.u2])
   = Examples.build1 3300 [Examples.pay "kaspatest:dest" 150000000] 0
       (Utxo.sort [Examples.u3; Examples.u1; Examples.u2])) /\
  (forall batch summary,
      Examples.build1 3300 [Examples.pay "kaspatest:dest" 150000000] 0
        (Utxo.sort [Examples.u1; Examples.u3; Examples.u2])
      = Builder.Ok (batch, summary) ->
      Selection.spent batch
      = firstn (Builder.utxoCount summary)
               (Utxo.sort [Examples.u1; Examples.u3; Examples.u2])).
Proof.
  apply (SelectionFacts.selection_follows_enumeration
           unit tt Examples.mass1 Examples.fee1 3300 1000
           [Examples.pay "kaspatest:dest" 150000000] 0 Examples.sender
           [Examples.u1; Examples.u3; Examples.u2]
           [Examples.u3; Examples.u1; Examples.u2]).
  apply perm_swap.
Defined.

(** C3 fails as stated: the two UTXOs below have the same amount and
    different outpoints.  Enumerated in the two possible orders they are
    sorted into different sequences, and the builder spends a different
    outpoint. *)
Lemma selection_depends_on_enumeration :
  Permutation [Examples.u1; Examples.u2] [Examples.u2; Examples.u1] /\
  Utxo.amt Examples.u1 = Utxo.amt Examples.u2 /\
  Utxo.sort [Examples.u1; Examples.u2] <> Utxo.sort [Examples.u2; Examples.u1] /\
  Examples.build1 100000 [Examples.pay "kaspatest:dest" 20000000] 0
    (Utxo.sort [Examples.u1; Examples.u2])
  <> Examples.build1 100000 [Examples.pay "kaspatest:dest" 20000000] 0
       (Utxo.sort [Examples.u2; Examples.u1]).
Proof.
  split; [apply perm_swap |].
  split; [reflexivity |].
  split; intros H; vm_compute in H; discriminate.
Qed.

(* ===================================================================== *)
(** ** The submission loop *)
(* ===================================================================== *)

Module DemoFacts.
Import Utxo Builder Demo.

Local Open Scope string_scope.
Local Open Scope list_scope.

(** One iteration of the loop of lines 67-74. *)
Lemma submit_all_step (w : World) (i : nat) (tx : PendingTransaction)
  (rest : Batch) (t : list Event) :
  submit_all w i (tx :: rest) t =
  let t2 := ((((t ++ [Console LogLevel "pending transaction:"])
                 ++ [Console LogLevel "signing tx with secret key:"])
                 ++ [SignStart i])) in
  match sign w i with
  | Err e => (t2 ++ [SignEnd i false], Err e)
  | Ok _ =>
      let t3 := ((t2 ++ [SignEnd i true])
                   ++ [Console LogLevel "submitting pending tx to RPC ..."])
                   ++ [SubmitStart i] in
      match submit w i with
      | Err e => (t3 ++ [SubmitEnd i false], Err e)
      | Ok _ =>
          submit_all w (S i) rest
            ((t3 ++ [SubmitEnd i true])
               ++ [Console LogLevel "node responded with txid:"])
      end
  end.
Proof.
  simpl. unfold bind, do_sign, do_submit, emit, bind, throw, ret. simpl.
  destruct (sign w i); [| reflexivity].
  simpl. destruct (submit w i); reflexivity.
Qed.

Lemma ordered_nil : ordered [].
Proof.
  intros t1 e t2 H. destruct t1; discriminate.
Qed.

Lemma ordered_snoc (t : list Event) (e : Event) :
  ordered t ->
  (forall i, starts e (S i) -> In (SubmitEnd i true) t) ->
  (forall i, e = SubmitStart i -> In (SignEnd i true) t) ->
  ordered (t ++ [e]).
Proof.
  intros Ht H1 H2 t1 e' t2 E.
  destruct (exists_last (l := e' :: t2)) as (m & z & Em); [discriminate |].
  rewrite Em in E. rewrite app_assoc in E.
  apply app_inj_tail in E. destruct E as [Et Ez]. subst z.
  destruct m as [| e'' m'].
  - simpl in Em. inversion Em; subst e' t2.
    rewrite app_nil_r in Et. subst t1. split; assumption.
  - simpl in Em. inversion Em; subst e'' t2.
    apply (Ht t1 e' m'). exact Et.
Qed.

Lemma ordered_snoc_plain (t : list Event) (e : Event) :
  ordered t -> is_start e = false -> ordered (t ++ [e]).
Proof.
  intros Ht He. apply ordered_snoc; [exact Ht | |].
  - intros i [H | H]; subst e; discriminate.
  - intros i H; subst e; discriminate.
Qed.

Lemma submit_all_ordered (w : World) (txs : Batch) :
  forall (i : nat) (t : list Event),
    ordered t ->
    (forall j, i = S j -> In (SubmitEnd j true) t) ->
    ordered (fst (submit_all w i txs t)).
Proof.
  induction txs as [| tx rest IH]; intros i t Ht Hprev.
  - exact Ht.
  - rewrite submit_all_step. cbv zeta.
    assert (ordered (((t ++ [Console LogLevel "pending transaction:"])
                        ++ [Console LogLevel "signing tx with secret key:"])
                        ++ [SignStart i])) as H3.
    { apply ordered_snoc;
        [repeat apply ordered_snoc_plain; auto | |].
      - intros j [H | H]; inversion H; subst i.
        apply in_or_app; left. apply in_or_app; left. apply Hprev; reflexivity.
      - intros j H; discriminate. }
    destruct (sign w i) as [u | e].
    + assert (ordered
                ((((((t ++ [Console LogLevel "pending transaction:"])
                      ++ [Console LogLevel "signing tx with secret key:"])
                      ++ [SignStart i]) ++ [SignEnd i true])
                    ++ [Console LogLevel "submitting pending tx to RPC ..."])
                   ++ [SubmitStart i])) as H6.
      { apply ordered_snoc;
          [do 2 (apply ordered_snoc_plain; [| reflexivity]); exact H3 | |].
        - intros j [H | H]; inversion H; subst i.
          do 5 (apply in_or_app; left). apply Hprev; reflexivity.
        - intros j H; inversion H; subst j.
          apply in_or_app; left. apply in_or_app; right. left; reflexivity. }
      destruct (submit w i) as [txid | e].
      * apply IH.
        -- do 2 (apply ordered_snoc_plain; [| reflexivity]); exact H6.
        -- intros j H; inversion H; subst j.
           apply in_or_app; left. apply in_or_app; right. left; reflexivity.
      * simpl. apply ordered_snoc_plain; auto.
    + simpl. apply ordered_snoc_plain; auto.
Qed.

Lemma ordered_no_start (t : list Event) :
  forallb (fun e => negb (is_start e)) t = true -> ordered t.
Proof.
  intros H t1 e t2 E. subst t.
  rewrite forallb_app in H. apply andb_prop in H. destruct H as [_ H].
  simpl in H. apply andb_prop in H. destruct H as [H _].
  split.
  - intros i [S | S]; subst e; discriminate.
  - intros i S; subst e; discriminate.
Qed.

Lemma runDemo_ordered (w : World) : ordered (trace w).
Proof.
  unfold trace, run, runDemo, bind, emit, await, throw, ret. simpl.
  destruct (connect w) as [u | e]; simpl;
    [| apply ordered_no_start; reflexivity].
  destruct (getUtxosByAddresses w [kaspaAddress w]) as [es | e]; simpl;
    [| apply ordered_no_start; reflexivity].
  destruct es as [| e0 es]; simpl; [apply ordered_no_start; reflexivity |].
  destruct (createTransactions w (request w (e0 :: es))) as [r | e]; simpl;
    [| apply ordered_no_start; reflexivity].
  match goal with
  | |- context [submit_all w 0 (fst r) ?t0] =>
      pose proof (submit_all_ordered w (fst r) 0 t0) as Hord;
      destruct (submit_all w 0 (fst r) t0) as [t' [u' | e']]
  end; simpl in *.
  - apply ordered_snoc_plain; [| reflexivity].
    apply Hord; [apply ordered_no_start; reflexivity | intros j H; discriminate].
  - apply Hord; [apply ordered_no_start; reflexivity | intros j H; discriminate].
Qed.

(** C4.  In every run, work on the transaction at position [i+1] of the
    Batch (its signing or its submission) begins only after the submission
    of the transaction at position [i] has been acknowledged, and a
    transaction is handed to the node only after its signing has
    completed. *)
Theorem batch_order_is_sequential (w : World) (t1 t2 : list Event)
  (e : Event) (i : nat) :
  trace w = t1 ++ e :: t2 ->
  (starts e (S i) -> In (SubmitEnd i true) t1) /\
  (e = SubmitStart i -> In (SignEnd i true) t1).
Proof.
  intros E. destruct (runDemo_ordered w t1 e t2 E) as [H1 H2].
  split; [apply H1 | apply H2].
Qed.

Lemma submit_all_failure (w : World) (txs : Batch) :
  forall (i : nat) (t : list Event) (k : nat) (e : Error),
    (i <= k < i + List.length txs)%nat ->
    sign w k = Err e \/ submit w k = Err e ->
    exists ext e' k',
      submit_all w i txs t = (t ++ ext, Err e') /\
      forallb (quiet k) ext = true /\
      (k' <= k)%nat /\
      (sign w k' = Err e' \/ submit w k' = Err e').
Proof.
  induction txs as [| tx rest IH]; intros i t k e Hk Hfail.
  - simpl in Hk. lia.
  - rewrite submit_all_step. cbv zeta.
    assert (Nat.leb i k = true) as Hik by (apply Nat.leb_le; lia).
    destruct (sign w i) as [u | e1] eqn:Esign.
    + destruct (submit w i) as [txid | e2] eqn:Esubmit.
      * assert (k <> i) as Hne.
        { intros ->. destruct Hfail as [H | H]; congruence. }
        destruct (IH (S i)
                    ((((((((t ++ [Console LogLevel "pending transaction:"])
                      ++ [Console LogLevel "signing tx with secret key:"])
                      ++ [SignStart i]) ++ [SignEnd i true])
                      ++ [Console LogLevel "submitting pending tx to RPC ..."])
                      ++ [SubmitStart i]) ++ [SubmitEnd i true])
                      ++ [Console LogLevel "node responded with txid:"])
                    k e) as (ext & e' & k' & E & Hq & Hk' & Hf').
        { simpl in Hk. lia. }
        { exact Hfail. }
        exists ([Console LogLevel "pending transaction:";
                 Console LogLevel "signing tx with secret key:";
                 SignStart i; SignEnd i true;
                 Console LogLevel "submitting pending tx to RPC ...";
                 SubmitStart i; SubmitEnd i true;
                 Console LogLevel "node responded with txid:"] ++ ext), e', k'.
        split; [| split; [| split; assumption]].
        -- rewrite E. rewrite <- !app_assoc. reflexivity.
        -- simpl. rewrite Hik, Hq. reflexivity.
      * exists [Console LogLevel "pending transaction:";
                Console LogLevel "signing tx with secret key:";
                SignStart i; SignEnd i true;
                Console LogLevel "submitting pending tx to RPC ...";
                SubmitStart i; SubmitEnd i false], e2, i.
        split; [| split; [| split]].
        -- rewrite <- !app_assoc. reflexivity.
        -- simpl. rewrite Hik. reflexivity.
        -- lia.
        -- right; exact Esubmit.
    + exists [Console LogLevel "pending transaction:";
              Console LogLevel "signing tx with secret key:";
              SignStart i; SignEnd i false], e1, i.
      split; [| split; [| split]].
      * rewrite <- !app_assoc. reflexivity.
      * simpl. rewrite Hik. reflexivity.
      * lia.
      * left; exact Esign.
Qed.

Lemma quiet_not_in (k : nat) (t : list Event) (e : Event) :
  forallb (quiet k) t = true -> quiet k e = false -> ~ In e t.
Proof.
  intros Hq He Hin.
  rewrite forallb_forall in Hq. specialize (Hq e Hin). congruence.
Qed.

Lemma quiet_status (k j : nat) (t : list Event) :
  (k < j)%nat -> forallb (quiet k) t = true ->
  forall s, fold_left (step_status j) t s = s.
Proof.
  intros Hkj. induction t as [| e t IH]; intros Hq s.
  - reflexivity.
  - simpl in Hq. apply andb_prop in Hq. destruct Hq as [He Ht].
    simpl. rewrite <- (IH Ht s) at 2. f_equal.
    destruct e as [| | | | i | i ok | i | i ok | i st |]; simpl in *;
      try reflexivity; try discriminate;
      apply Nat.leb_le in He;
      assert (Nat.eqb i j = false) as -> by (apply Nat.eqb_neq; lia);
      try reflexivity; destruct ok; reflexivity.
Qed.

(** A run that reaches the loop with a Batch in which position [k] fails:
    the loop throws, and everything the run did is quiet behind [k]. *)
Lemma failing_run (w : World) (es : list UtxoEntryReference) (b : Batch)
  (s : Summary) (k : nat) (e : Error) :
  connect w = Ok tt ->
  getUtxosByAddresses w [kaspaAddress w] = Ok es ->
  es <> [] ->
  createTransactions w (request w es) = Ok (b, s) ->
  (k < List.length b)%nat ->
  sign w k = Err e \/ submit w k = Err e ->
  exists e' k',
    outcome w = Err e' /\
    forallb (quiet k) (trace w) = true /\
    (k' <= k)%nat /\
    (sign w k' = Err e' \/ submit w k' = Err e').
Proof.
  intros Hc Hg Hne Hcr Hk Hfail.
  destruct es as [| e0 es]; [congruence |].
  unfold outcome, trace, run, runDemo, bind, emit, await, throw, ret.
  rewrite Hc. simpl. rewrite Hg. simpl. rewrite Hcr. simpl.
  match goal with
  | |- context [submit_all w 0 b ?t0] =>
      destruct (submit_all_failure w b 0 t0 k e) as (ext & e' & k' & E & Hq & Hk' & Hf');
        [lia | exact Hfail |]
  end.
  rewrite E. simpl. exists e', k'.
  split; [reflexivity |].
  split; [| split; assumption].
  exact Hq.
Qed.


End DemoFacts.

(* ===================================================================== *)
(** ** The build request *)
(* ===================================================================== *)

Module RequestFacts.
Import Utxo Builder Demo.

Local Open Scope string_scope.
Local Open Scope list_scope.

Lemma submit_all_no_create (w : World) (txs : Batch) :
  forall (i : nat) (t : list Event),
    exists ext,
      fst (submit_all w i txs t) = t ++ ext /\
      forallb (fun e => negb (is_create e)) ext = true.
Proof.
  induction txs as [| tx rest IH]; intros i t.
  - exists []. simpl. rewrite app_nil_r. split; reflexivity.
  - rewrite DemoFacts.submit_all_step. cbv zeta.
    destruct (sign w i) as [u | e1].
    + destruct (submit w i) as [txid | e2].
      * match goal with
        | |- context [submit_all w (S i) rest ?t1] =>
            destruct (IH (S i) t1) as (ext & E & Hq)
        end.
        exists ([Console LogLevel "pending transaction:";
                 Console LogLevel "signing tx with secret key:";
                 SignStart i; SignEnd i true;
                 Console LogLevel "submitting pending tx to RPC ...";
                 SubmitStart i; SubmitEnd i true;
                 Console LogLevel "node responded with txid:"] ++ ext).
        split; [rewrite E; rewrite <- !app_assoc; reflexivity |].
        simpl. exact Hq.
      * eexists. split; [simpl; rewrite <- !app_assoc; reflexivity |].
        reflexivity.
    + eexists. split; [simpl; rewrite <- !app_assoc; reflexivity |].
      reflexivity.
Qed.

Lemma not_create_not_in (t : list Event) (req : Request) :
  forallb (fun e => negb (is_create e)) t = true ->
  ~ In (CreateTransactions req) t.
Proof.
  intros Hq Hin. rewrite forallb_forall in Hq.
  specialize (Hq _ Hin). discriminate.
Qed.

Ltac no_create H :=
  simpl in H; repeat (destruct H as [H | H]; [discriminate |]); contradiction.

(** Every call of [createTransactions] carries the request of lines
    58-63, made from a non-empty answer of the node. *)
Lemma create_requests (w : World) (req : Request) :
  In (CreateTransactions req) (trace w) ->
  exists e0 es,
    getUtxosByAddresses w [kaspaAddress w] = Ok (e0 :: es) /\
    req = request w (e0 :: es).
Proof.
  unfold trace, run, runDemo, bind, emit, await, throw, ret. simpl.
  destruct (connect w) as [u | e]; simpl; [| intros H; no_create H].
  destruct (getUtxosByAddresses w [kaspaAddress w]) as [es | e]; simpl;
    [| intros H; no_create H].
  destruct es as [| e0 es]; simpl; [intros H; no_create H |].
  intros H. exists e0, es. split; [reflexivity |].
  assert (forall t,
             In (CreateTransactions req)
                ([Console LogLevel "using destination address:";
                  Console InfoLevel "Full kaspa address: ";
                  Console InfoLevel "address";
                  Console InfoLevel "xOnlyPublicKey";
                  Console InfoLevel "publicKey";
                  Console LogLevel "Connecting to ";
                  Connect; GetUtxosByAddresses [kaspaAddress w];
                  Console InfoLevel "entries";
                  CreateTransactions (request w (e0 :: es))] ++ t) ->
             forallb (fun e => negb (is_create e)) t = true ->
             req = request w (e0 :: es)) as Hpre.
  { intros t Hin Ht. apply in_app_or in Hin. destruct Hin as [Hin | Hin].
    - simpl in Hin.
      repeat (destruct Hin as [Hin | Hin]; [try discriminate |]);
        [inversion Hin; reflexivity | contradiction].
    - exfalso. revert Hin. apply not_create_not_in; exact Ht. }
  destruct (createTransactions w (request w (e0 :: es))) as [r | e]; simpl in H.
  - match type of H with
    | context [submit_all w 0 (fst r) ?t0] =>
        destruct (submit_all_no_create w (fst r) 0 t0) as (ext & E & Hq);
        destruct (submit_all w 0 (fst r) t0) as [t' [u' | e']]
    end; simpl in E; subst t'; simpl in H.
    + apply (Hpre ((Console LogLevel "summary:" :: ext) ++ [Disconnect])).
      * exact H.
      * rewrite forallb_app. simpl. rewrite Hq. reflexivity.
    + apply (Hpre (Console LogLevel "summary:" :: ext)).
      * exact H.
      * simpl. exact Hq.
  - apply (Hpre []); [exact H | reflexivity].
Qed.

Lemma sort_not_nil (e0 : UtxoEntryReference) (es : list UtxoEntryReference) :
  sort (e0 :: es) <> [].
Proof.
  intros E.
  pose proof (UtxoFacts.sort_perm (e0 :: es)) as HP.
  rewrite E in HP. apply Permutation_sym, Permutation_nil in HP.
  discriminate.
Qed.

(** C6.  When the node answers with no UTXO, the run makes no call to
    [createTransactions]; it writes "No UTXOs found for address" on the
    console (through [console.error]) and completes without throwing.
    In no run at all is [createTransactions] called with an empty array
    of entries. *)
Theorem no_utxos_no_build (w : World) :
  connect w = Ok tt ->
  getUtxosByAddresses w [kaspaAddress w] = Ok [] ->
  (forall req, ~ In (CreateTransactions req) (trace w)) /\
  In (Console ErrorLevel "No UTXOs found for address") (trace w) /\
  In Disconnect (trace w) /\
  outcome w = Ok tt /\
  (forall w' req, In (CreateTransactions req) (trace w') -> entries req <> []).
Proof.
  intros Hc Hg.
  split; [| split; [| split; [| split]]].
  - intros req Hin. apply create_requests in Hin.
    destruct Hin as (e0 & es & E & _). congruence.
  - unfold trace, run, runDemo, bind, emit, await, throw, ret.
    rewrite Hc. simpl. rewrite Hg. simpl. do 8 right. left. reflexivity.
  - unfold trace, run, runDemo, bind, emit, await, throw, ret.
    rewrite Hc. simpl. rewrite Hg. simpl. do 9 right. left. reflexivity.
  - unfold outcome, run, runDemo, bind, emit, await, throw, ret.
    rewrite Hc. simpl. rewrite Hg. reflexivity.
  - intros w' req Hin. apply create_requests in Hin.
    destruct Hin as (e0 & es & _ & ->). simpl. apply sort_not_nil.
Qed.

(** C10, as the code has it.  The destination is the fixed testnet
    address when no argument is supplied or when the first argument is
    the empty string, and the first argument otherwise.  Every build
    request has exactly one output, of amount [kaspaToSompi(0.2)] to the
    destination, priority fee 0, and the sender's address as change
    address. *)
Theorem destination_and_request (w : World) :
  (argv w = [] -> destination w = default_destination) /\
  (forall rest, argv w = EmptyString :: rest ->
                destination w = default_destination) /\
  (forall a rest, argv w = a :: rest -> a <> EmptyString ->
                  destination w = a) /\
  (forall req, In (CreateTransactions req) (trace w) ->
               req_outputs req = [(destination w, kaspaToSompi w (2 # 10)%Q)] /\
               req_priorityFee req = 0%N /\
               req_changeAddress req = kaspaAddress w).
Proof.
  unfold destination.
  split; [| split; [| split]].
  - intros ->. reflexivity.
  - intros rest ->. reflexivity.
  - intros a rest -> Ha. simpl. destruct a; [contradiction | reflexivity].
  - intros req Hin. apply create_requests in Hin.
    destruct Hin as (e0 & es & _ & ->). repeat split.
Qed.

End RequestFacts.

(* ===================================================================== *)
(** ** The theorems on concrete runs *)
(* ===================================================================== *)

Lemma batch_order_is_sequential_witness :
  Demo.trace Examples.all_succeed
  = Examples.before_second_sign ++ Demo.SignStart 1 :: Examples.after_second_sign /\
  In (Demo.SubmitEnd 0 true) Examples.before_second_sign.
Proof.
  assert (Demo.trace Examples.all_succeed
          = Examples.before_second_sign
              ++ Demo.SignStart 1 :: Examples.after_second_sign) as E
    by (vm_compute; reflexivity).
  split; [exact E |].
  apply (proj1 (DemoFacts.batch_order_is_sequential Examples.all_succeed
                  Examples.before_second_sign Examples.after_second_sign
                  (Demo.SignStart 1) 0 E)).
  left; reflexivity.
Defined.


(** C2 fails as stated: in a Batch of three chained transactions whose
    second submission is rejected by the node, the third transaction is
    left in the status [Built]; it is not marked [DependencyCancelled],
    as the pipeline of the ordering contract would mark it, and the run
    reports nothing but the node's rejection of the second one. *)
Lemma later_transactions_not_cancelled :
  Demo.submit Examples.second_submit_fails 1
  = Builder.Err (Demo.SubmissionError "rejected") /\
  Demo.status_after (Demo.trace Examples.second_submit_fails) 2 = Demo.Built /\
  Demo.status_after (Demo.trace Examples.second_submit_fails) 2
  <> Demo.DependencyCancelled /\
  Demo.outcome Examples.second_submit_fails
  = Builder.Err (Demo.SubmissionError "rejected") /\
  Demo.status_after
    (fst (Demo.pipeline_spec Examples.second_submit_fails 0
            [Examples.tx0; Examples.tx0; Examples.tx0] [])) 2
  = Demo.DependencyCancelled.
Proof.
  split; [reflexivity |].
  split; [vm_compute; reflexivity |].
  split; [vm_compute; discriminate |].
  split; vm_compute; reflexivity.
Qed.

Lemma no_utxos_no_build_witness :
  (forall req, ~ In (Demo.CreateTransactions req) (Demo.trace Examples.no_utxos)) /\
  In (Demo.Console Demo.ErrorLevel "No UTXOs found for address")
     (Demo.trace Examples.no_utxos) /\
  In Demo.Disconnect (Demo.trace Examples.no_utxos) /\
  Demo.outcome Examples.no_utxos = Builder.Ok tt /\
  (forall w' req, In (Demo.CreateTransactions req) (Demo.trace w') ->
                  Demo.entries req <> []).
Proof.
  apply (RequestFacts.no_utxos_no_build Examples.no_utxos); reflexivity.
Defined.

(** C10 fails as stated: a first argument is supplied, the empty
    string, and the destination is the fixed testnet address instead of
    that argument. *)
Lemma empty_argument_uses_default :
  Demo.argv Examples.empty_argument = [EmptyString] /\
  Demo.destination Examples.empty_argument = Demo.default_destination /\
  Demo.destination Examples.empty_argument
  <> hd EmptyString (Demo.argv Examples.empty_argument).
Proof.
  split; [reflexivity |].
  split; [reflexivity |].
  vm_compute. discriminate.
Qed.

Lemma destination_and_request_witness :
  Demo.destination Examples.with_argument = "kaspatest:dest"%string.
Proof.
  apply (proj1 (proj2 (proj2 (RequestFacts.destination_and_request
                                Examples.with_argument)))
           "kaspatest:dest"%string []).
  - reflexivity.
  - discriminate.
Defined.

(* ===================================================================== *)
(** ** Every run has one of six shapes *)
(* ===================================================================== *)

Module RunFacts.
Import Utxo Builder Demo Run.

Local Open Scope string_scope.
Local Open Scope list_scope.

(** The loop only appends to the trace it is started with. *)
Lemma submit_all_app (w : World) (txs : Batch) :
  forall (i : nat) (t : list Event),
    submit_all w i txs t = (t ++ fst (loop w i txs), snd (loop w i txs)).
Proof.
  unfold loop.
  induction txs as [| tx rest IH]; intros i t.
  - simpl. unfold ret. rewrite app_nil_r. reflexivity.
  - rewrite !DemoFacts.submit_all_step. cbv zeta.
    destruct (sign w i) as [u | e1].
    + destruct (submit w i) as [txid | e2].
      * rewrite (IH (S i) (_ ++ _)).
        rewrite (IH (S i) ((_ ++ _) ++ _)). simpl.
        rewrite <- !app_assoc. reflexivity.
      * simpl. rewrite <- !app_assoc. reflexivity.
    + simpl. rewrite <- !app_assoc. reflexivity.
Qed.

Lemma loop_nil (w : World) (i : nat) : loop w i [] = ([], Ok tt).
Proof. reflexivity. Qed.

Lemma loop_cons (w : World) (i : nat) (tx : PendingTransaction)
  (rest : Batch) :
  loop w i (tx :: rest) =
  match sign w i with
  | Err e => (sign_rejected i, Err e)
  | Ok _ =>
      match submit w i with
      | Err e => (submit_rejected i, Err e)
      | Ok _ => (iteration i ++ fst (loop w (S i) rest),
                 snd (loop w (S i) rest))
      end
  end.
Proof.
  unfold loop at 1. rewrite DemoFacts.submit_all_step. cbv zeta.
  destruct (sign w i) as [u | e1]; [| reflexivity].
  destruct (submit w i) as [txid | e2]; [| reflexivity].
  rewrite submit_all_app. reflexivity.
Qed.

Lemma run_shape (w : World) : Shape w.
Proof.
  destruct (connect w) as [[] | e] eqn:Hc.
  - destruct (getUtxosByAddresses w [kaspaAddress w]) as [es | e] eqn:Hq.
    + destruct es as [| e0 es].
      * apply NoUtxos; [exact Hc | exact Hq |].
        unfold run, runDemo, bind, emit, await, throw, ret.
        rewrite Hc. simpl. rewrite Hq. reflexivity.
      * destruct (createTransactions w (request w (e0 :: es)))
          as [[b s] | e] eqn:Hb.
        -- destruct (snd (loop w 0 b)) as [[] | e] eqn:Hl.
           ++ apply (Completed w (e0 :: es) b s);
                [exact Hc | exact Hq | discriminate | exact Hb | exact Hl |].
              unfold run, runDemo, bind, emit, await, throw, ret.
              rewrite Hc. simpl. rewrite Hq. simpl. rewrite Hb. simpl.
              rewrite submit_all_app, Hl. simpl. reflexivity.
           ++ apply (LoopRejected w (e0 :: es) b s e);
                [exact Hc | exact Hq | discriminate | exact Hb | exact Hl |].
              unfold run, runDemo, bind, emit, await, throw, ret.
              rewrite Hc. simpl. rewrite Hq. simpl. rewrite Hb. simpl.
              rewrite submit_all_app, Hl. simpl. reflexivity.
        -- apply (BuildRejected w (e0 :: es) e); [exact Hc | exact Hq | discriminate | exact Hb |].
           unfold run, runDemo, bind, emit, await, throw, ret.
           rewrite Hc. simpl. rewrite Hq. simpl. rewrite Hb. reflexivity.
    + apply (QueryRejected w e); [exact Hc | exact Hq |].
      unfold run, runDemo, bind, emit, await, throw, ret.
      rewrite Hc. simpl. rewrite Hq. reflexivity.
  - apply (ConnectRejected w e); [exact Hc |].
    unfold run, runDemo, bind, emit, await, throw, ret.
    rewrite Hc. reflexivity.
Qed.

Lemma loop_events (w : World) (txs : Batch) :
  forall i, forallb loop_event (fst (loop w i txs)) = true.
Proof.
  induction txs as [| tx rest IH]; intros i.
  - reflexivity.
  - rewrite loop_cons.
    destruct (sign w i); [| reflexivity].
    destruct (submit w i); [| reflexivity].
    cbn [fst]. rewrite forallb_app, IH. reflexivity.
Qed.

Lemma loop_result (w : World) (txs : Batch) :
  forall i, is_ok (snd (loop w i txs)) = all_ok w i (List.length txs).
Proof.
  induction txs as [| tx rest IH]; intros i.
  - reflexivity.
  - rewrite loop_cons. unfold all_ok. simpl.
    destruct (sign w i); [| reflexivity].
    destruct (submit w i); [| reflexivity].
    simpl. apply IH.
Qed.

Lemma loop_schedule (w : World) (txs : Batch) :
  forall i,
    all_ok w i (List.length txs) = true ->
    filter is_pipeline (fst (loop w i txs)) = schedule i (List.length txs).
Proof.
  induction txs as [| tx rest IH]; intros i Hok.
  - reflexivity.
  - rewrite loop_cons. unfold all_ok in Hok. simpl in Hok.
    apply andb_prop in Hok. destruct Hok as [Hi Hrest].
    apply andb_prop in Hi. destruct Hi as [Hs Hb].
    destruct (sign w i); [| discriminate].
    destruct (submit w i); [| discriminate].
    cbn [fst]. rewrite filter_app. rewrite (IH (S i) Hrest).
    reflexivity.
Qed.

Lemma loop_indices (w : World) (txs : Batch) :
  forall i j,
    In (SignStart j) (fst (loop w i txs)) \/
    In (SubmitStart j) (fst (loop w i txs)) ->
    (i <= j < i + List.length txs)%nat.
Proof.
  induction txs as [| tx rest IH]; intros i j H.
  - simpl in H. tauto.
  - rewrite loop_cons in H. simpl List.length.
    destruct (sign w i).
    + destruct (submit w i).
      * cbn [fst] in H.
        assert (i = j \/ (S i <= j < S i + List.length rest)%nat) as [-> | Hr];
          [| lia | lia].
        destruct H as [H | H]; apply in_app_or in H; destruct H as [H | H].
        -- left. simpl in H.
           repeat (destruct H as [H | H]; [try discriminate |]);
             [inversion H; reflexivity | contradiction].
        -- right. apply IH. left; exact H.
        -- left. simpl in H.
           repeat (destruct H as [H | H]; [try discriminate |]);
             [inversion H; reflexivity | contradiction].
        -- right. apply IH. right; exact H.
      * assert (i = j) as ->; [| lia].
        simpl in H. destruct H as [H | H];
          repeat (destruct H as [H | H]; [try discriminate |]);
          try contradiction; inversion H; reflexivity.
    + assert (i = j) as ->; [| lia].
      simpl in H. destruct H as [H | H];
        repeat (destruct H as [H | H]; [try discriminate |]);
        try contradiction; inversion H; reflexivity.
Qed.

Lemma loop_once (w : World) (txs : Batch) :
  forall i j,
    (count (is_sign_start j) (fst (loop w i txs))
     <= if Nat.leb i j then 1 else 0)%nat /\
    (count (is_submit_start j) (fst (loop w i txs))
     <= if Nat.leb i j then 1 else 0)%nat.
Proof.
  unfold count.
  induction txs as [| tx rest IH]; intros i j.
  - simpl. split; lia.
  - rewrite loop_cons. destruct (IH (S i) j) as [IH1 IH2].
    destruct (sign w i).
    + destruct (submit w i).
      * cbn [fst]. rewrite !filter_app, !length_app. simpl.
        destruct (Nat.eqb_spec i j) as [-> | Hne].
        -- assert (Nat.leb (S j) j = false) as E by (apply Nat.leb_gt; lia).
           rewrite E in IH1, IH2. rewrite Nat.leb_refl. simpl. split; lia.
        -- destruct (Nat.leb_spec (S i) j), (Nat.leb_spec i j);
             simpl; split; lia.
      * simpl. destruct (Nat.eqb_spec i j) as [-> | Hne].
        -- rewrite Nat.leb_refl. simpl. split; lia.
        -- simpl. split; lia.
    + simpl. destruct (Nat.eqb_spec i j) as [-> | Hne].
      * rewrite Nat.leb_refl. simpl. split; lia.
      * simpl. split; lia.
Qed.

Lemma all_ok_S (w : World) (i n : nat) :
  all_ok w i (S n)
  = (is_ok (sign w i) && is_ok (submit w i)) && all_ok w (S i) n.
Proof. reflexivity. Qed.

Lemma loop_error (w : World) (txs : Batch) :
  forall i e,
    snd (loop w i txs) = Err e ->
    exists k,
      (i <= k < i + List.length txs)%nat /\
      all_ok w i (k - i) = true /\
      (sign w k = Err e \/ (is_ok (sign w k) = true /\ submit w k = Err e)).
Proof.
  induction txs as [| tx rest IH]; intros i e H.
  - discriminate.
  - rewrite loop_cons in H. simpl List.length.
    destruct (sign w i) as [u | e1] eqn:Es.
    + destruct (submit w i) as [txid | e2] eqn:Eb.
      * simpl in H. destruct (IH (S i) e H) as (k & Hk & Hok & Hf).
        exists k. split; [lia |]. split; [| exact Hf].
        replace (k - i)%nat with (S (k - S i)) by lia.
        rewrite all_ok_S, Es, Eb, Hok. reflexivity.
      * inversion H; subst e2. exists i.
        split; [lia |]. rewrite Nat.sub_diag.
        split; [reflexivity |]. right. rewrite Es. split; [reflexivity | exact Eb].
    + inversion H; subst e1. exists i.
      split; [lia |]. rewrite Nat.sub_diag.
      split; [reflexivity |]. left; exact Es.
Qed.

(** Whatever a predicate rejects on every event of the loop does not
    occur in the loop's part of the trace. *)
Lemma loop_count_zero (p : Event -> bool) (t : list Event) :
  forallb loop_event t = true ->
  (forall e, loop_event e = true -> p e = false) ->
  filter p t = [].
Proof.
  intros Ht Hp. induction t as [| e t IH]; [reflexivity |].
  simpl in Ht. apply andb_prop in Ht. destruct Ht as [He Ht].
  simpl. rewrite (Hp e He). apply IH; exact Ht.
Qed.

Lemma filter_nil_not_in (p : Event -> bool) (t : list Event) (e : Event) :
  filter p t = [] -> p e = true -> ~ In e t.
Proof.
  intros Hf He Hin.
  assert (In e (filter p t)) as H by (apply filter_In; split; assumption).
  rewrite Hf in H. exact H.
Qed.

End RunFacts.

(* ===================================================================== *)
(** ** More on the comparator sort *)
(* ===================================================================== *)

Module SortFacts.
Import Utxo Builder Demo.

Lemma is_negative_SortCompare (a b : UtxoEntryReference) :
  Js.is_negative (SortCompare a b) = (amt a <? amt b).
Proof.
  unfold SortCompare.
  destruct (UtxoFacts.SortCompare_cases a b) as [[H E] | [[H E] | [H E]]];
    rewrite E; simpl; symmetry.
  - apply N.ltb_ge; lia.
  - apply N.ltb_lt; assumption.
  - apply N.ltb_ge; lia.
Qed.

Lemma is_zero_SortCompare (a b : UtxoEntryReference) :
  Js.is_zero (SortCompare a b) = (amt a =? amt b).
Proof.
  unfold SortCompare.
  destruct (UtxoFacts.SortCompare_cases a b) as [[H E] | [[H E] | [H E]]];
    rewrite E; simpl; symmetry.
  - apply N.eqb_neq; lia.
  - apply N.eqb_neq; lia.
  - apply N.eqb_eq; assumption.
Qed.

(** The comparator of line 56 is a consistent comparison function, which
    is what [Array.prototype.sort] requires for a defined result:
    swapping the arguments swaps the sign, an entry compares as equal to
    itself, exactly one of the three signs holds, and "not greater" is
    transitive. *)
Theorem comparator_consistent (a b c : UtxoEntryReference) :
  Js.is_positive (SortCompare a b) = Js.is_negative (SortCompare b a) /\
  Js.is_zero (SortCompare a b) = Js.is_zero (SortCompare b a) /\
  Js.is_zero (SortCompare a a) = true /\
  xorb (Js.is_zero (SortCompare a b))
       (xorb (Js.is_positive (SortCompare a b))
             (Js.is_negative (SortCompare a b))) = true /\
  (Js.is_positive (SortCompare a b) && Js.is_negative (SortCompare a b)
   = false) /\
  (Js.is_positive (SortCompare a b) = false ->
   Js.is_positive (SortCompare b c) = false ->
   Js.is_positive (SortCompare a c) = false).
Proof.
  rewrite !UtxoFacts.is_positive_SortCompare, !is_negative_SortCompare,
    !is_zero_SortCompare.
  split; [reflexivity |].
  split; [apply N.eqb_sym |].
  split; [apply N.eqb_refl |].
  split; [| split].
  - destruct (N.eqb_spec (amt a) (amt b)), (N.ltb_spec (amt b) (amt a)),
      (N.ltb_spec (amt a) (amt b)); simpl; try reflexivity; lia.
  - destruct (N.ltb_spec (amt b) (amt a)), (N.ltb_spec (amt a) (amt b));
      simpl; try reflexivity; lia.
  - intros H1 H2. apply N.ltb_ge in H1, H2. apply N.ltb_ge. lia.
Qed.

(** Sorting twice is sorting once, and the arrays the sort leaves
    untouched are exactly those already in non-decreasing amount: such an
    array keeps even the order of its equal-amount entries. *)
Theorem sort_fixed_points (l : list UtxoEntryReference) :
  sort (sort l) = sort l /\
  (sort l = l <-> StronglySorted amount_le l).
Proof.
  assert (forall m, StronglySorted amount_le m -> sort m = m) as Hfix.
  { intros m Hm. symmetry.
    apply UtxoFacts.sort_is_the_stable_arrangement; [exact Hm |].
    intros v; reflexivity. }
  split.
  - apply Hfix, UtxoFacts.sort_sorted.
  - split.
    + intros E. rewrite <- E. apply UtxoFacts.sort_sorted.
    + apply Hfix.
Qed.

Lemma sorted_amounts (l : list UtxoEntryReference) :
  StronglySorted amount_le l -> StronglySorted N.le (map amt l).
Proof.
  induction 1 as [| a l Hs IH Ha]; simpl; constructor.
  - exact IH.
  - apply Forall_map. exact Ha.
Qed.

Lemma sorted_numbers_unique (l1 : list N) :
  forall l2,
    StronglySorted N.le l1 -> StronglySorted N.le l2 ->
    Permutation l1 l2 -> l1 = l2.
Proof.
  induction l1 as [| a l1 IH]; intros l2 H1 H2 HP.
  - apply Permutation_nil in HP. subst; reflexivity.
  - destruct l2 as [| b l2].
    + apply Permutation_sym, Permutation_nil in HP. discriminate.
    + inversion H1 as [| ? ? Hs1 Ha]; subst.
      inversion H2 as [| ? ? Hs2 Hb]; subst.
      assert (a = b) as ->.
      { assert (In a (b :: l2)) as Ia
          by (eapply Permutation_in; [exact HP | left; reflexivity]).
        assert (In b (a :: l1)) as Ib
          by (eapply Permutation_in;
              [apply Permutation_sym; exact HP | left; reflexivity]).
        rewrite Forall_forall in Ha, Hb.
        destruct Ia as [-> | Ia]; [reflexivity |].
        destruct Ib as [-> | Ib]; [reflexivity |].
        specialize (Ha _ Ib). specialize (Hb _ Ia). lia. }
      f_equal. apply IH; [exact Hs1 | exact Hs2 |].
      eapply Permutation_cons_inv; exact HP.
Qed.

(** However the node enumerates a collection of UTXOs, the sort hands
    the same sequence of amounts to the builder: only the outpoints
    behind equal amounts can change places. *)
Theorem sorted_amounts_independent_of_enumeration
  (U1 U2 : list UtxoEntryReference) :
  Permutation U1 U2 ->
  map amt (sort U1) = map amt (sort U2).
Proof.
  intros HP. apply sorted_numbers_unique.
  - apply sorted_amounts, UtxoFacts.sort_sorted.
  - apply sorted_amounts, UtxoFacts.sort_sorted.
  - apply Permutation_map.
    eapply perm_trans; [apply Permutation_sym, UtxoFacts.sort_perm |].
    eapply perm_trans; [exact HP | apply UtxoFacts.sort_perm].
Qed.

(** Every call of [createTransactions] is handed the UTXOs the node
    answered with, all of them and nothing else, arranged in
    non-decreasing amount. *)
Theorem request_carries_sorted_utxos (w : World) (req : Request) :
  In (CreateTransactions req) (trace w) ->
  exists es,
    getUtxosByAddresses w [kaspaAddress w] = Ok es /\
    Permutation es (entries req) /\
    List.length (entries req) = List.length es /\
    StronglySorted amount_le (entries req).
Proof.
  intros Hin. apply RequestFacts.create_requests in Hin.
  destruct Hin as (e0 & es & Hq & ->).
  exists (e0 :: es). split; [exact Hq |].
  unfold request; cbn [entries].
  split; [apply UtxoFacts.sort_perm |].
  split; [| apply UtxoFacts.sort_sorted].
  symmetry. apply Permutation_length, UtxoFacts.sort_perm.
Qed.

End SortFacts.

Lemma sorted_amounts_independent_of_enumeration_witness :
  map Utxo.amt (Utxo.sort [Examples.u1; Examples.u3; Examples.u2])
  = map Utxo.amt (Utxo.sort [Examples.u2; Examples.u1; Examples.u3]).
Proof.
  apply (SortFacts.sorted_amounts_independent_of_enumeration
           [Examples.u1; Examples.u3; Examples.u2]
           [Examples.u2; Examples.u1; Examples.u3]).
  apply (perm_trans (l' := [Examples.u1; Examples.u2; Examples.u3])).
  - apply perm_skip. apply perm_swap.
  - apply perm_swap.
Defined.

Lemma request_carries_sorted_utxos_witness :
  exists es,
    Demo.getUtxosByAddresses
      (Examples.world [] [Examples.u1; Examples.u3; Examples.u2]
                      Examples.always Examples.always)
      [Demo.kaspaAddress
         (Examples.world [] [Examples.u1; Examples.u3; Examples.u2]
                         Examples.always Examples.always)] = Builder.Ok es /\
    Permutation es
      (Demo.entries
         (Demo.request
            (Examples.world [] [Examples.u1; Examples.u3; Examples.u2]
                            Examples.always Examples.always)
            [Examples.u1; Examples.u3; Examples.u2])) /\
    List.length
      (Demo.entries
         (Demo.request
            (Examples.world [] [Examples.u1; Examples.u3; Examples.u2]
                            Examples.always Examples.always)
            [Examples.u1; Examples.u3; Examples.u2]))
    = List.length es /\
    StronglySorted Utxo.amount_le
      (Demo.entries
         (Demo.request
            (Examples.world [] [Examples.u1; Examples.u3; Examples.u2]
                            Examples.always Examples.always)
            [Examples.u1; Examples.u3; Examples.u2])).
Proof.
  apply (SortFacts.request_carries_sorted_utxos
           (Examples.world [] [Examples.u1; Examples.u3; Examples.u2]
                           Examples.always Examples.always)
           (Demo.request
              (Examples.world [] [Examples.u1; Examples.u3; Examples.u2]
                              Examples.always Examples.always)
              [Examples.u1; Examples.u3; Examples.u2])).
  vm_compute. do 9 right. left. reflexivity.
Defined.

(* ===================================================================== *)
(** ** What a run does and never does *)
(* ===================================================================== *)

Module RunProperties.
Import Utxo Builder Demo Run.

Local Open Scope string_scope.
Local Open Scope list_scope.

Lemma trace_of_run (w : World) (t : list Event) (r : Result Error unit) :
  run w = (t, r) -> trace w = t /\ outcome w = r.
Proof.
  unfold trace, outcome. intros ->. split; reflexivity.
Qed.

Ltac shape w :=
  destruct (RunFacts.run_shape w)
    as [err Hc Hr | err Hc Hq Hr | Hc Hq Hr | es err Hc Hq Hes Hb Hr
        | es b s err Hc Hq Hes Hb Hl Hr | es b s Hc Hq Hes Hb Hl Hr];
  destruct (trace_of_run w _ _ Hr) as [Ht Ho].

Lemma loop_no_disconnect (w : World) (b : Batch) :
  filter is_disconnect (fst (loop w 0 b)) = [].
Proof.
  apply RunFacts.loop_count_zero; [apply RunFacts.loop_events |].
  intros [[] m | | | | | | | | |]; simpl; intros; congruence.
Qed.

(** [rpc.disconnect()] is called exactly in the runs that complete
    without a rejection; it is then called once, as the last thing the
    run does.  A run that fails anywhere leaves the connection open. *)
Theorem disconnect_iff_completed (w : World) :
  (In Disconnect (trace w) <-> outcome w = Ok tt) /\
  (count is_disconnect (trace w) <= 1)%nat /\
  (outcome w = Ok tt ->
   exists t, trace w = t ++ [Disconnect] /\ ~ In Disconnect t).
Proof.
  assert (forall b, ~ In Disconnect (fst (loop w 0 b))) as Hloop.
  { intros b. apply (RunFacts.filter_nil_not_in is_disconnect);
      [apply loop_no_disconnect | reflexivity]. }
  unfold count.
  shape w; rewrite Ht, Ho.
  - split; [split; [intros H; simpl in H | discriminate] |].
    + repeat (destruct H as [H | H]; [discriminate |]). contradiction.
    + split; [simpl; lia | discriminate].
  - split; [split; [intros H; simpl in H | discriminate] |].
    + repeat (destruct H as [H | H]; [discriminate |]). contradiction.
    + split; [simpl; lia | discriminate].
  - split; [split; [reflexivity | intros _; simpl; tauto] |].
    split; [simpl; lia |].
    intros _.
    exists (pre_query w ++ [Console ErrorLevel "No UTXOs found for address"]).
    split; [rewrite <- app_assoc; reflexivity |].
    simpl. intros H.
    repeat (destruct H as [H | H]; [discriminate |]). contradiction.
  - split; [split; [intros H; simpl in H | discriminate] |].
    + repeat (destruct H as [H | H]; [discriminate |]). contradiction.
    + split; [simpl; lia | discriminate].
  - split; [split; [intros H | discriminate] |].
    + apply in_app_or in H. destruct H as [H | H].
      * simpl in H.
        repeat (destruct H as [H | H]; [discriminate |]). contradiction.
      * exfalso. exact (Hloop b H).
    + split; [| discriminate].
      rewrite filter_app, length_app, loop_no_disconnect. simpl. lia.
  - split; [split; [reflexivity |] |].
    + intros _. apply in_or_app; right. apply in_or_app; right.
      left; reflexivity.
    + split.
      * rewrite !filter_app, !length_app, loop_no_disconnect. simpl. lia.
      * intros _. exists (pre_loop w es ++ fst (loop w 0 b)).
        split; [rewrite <- app_assoc; reflexivity |].
        intros H. apply in_app_or in H. destruct H as [H | H].
        -- simpl in H.
           repeat (destruct H as [H | H]; [discriminate |]). contradiction.
        -- exact (Hloop b H).
Qed.

(** A run completes exactly when the connection is made, the node
    answers, and either it answers with no UTXO or the Batch is built and
    every one of its transactions is signed and accepted. *)
Theorem completed_iff_all_succeed (w : World) :
  outcome w = Ok tt <->
  connect w = Ok tt /\
  exists es,
    getUtxosByAddresses w [kaspaAddress w] = Ok es /\
    (es = [] \/
     exists b s,
       createTransactions w (request w es) = Ok (b, s) /\
       all_ok w 0 (List.length b) = true).
Proof.
  shape w; rewrite Ho; split.
  - discriminate.
  - intros [Hc' _]. congruence.
  - discriminate.
  - intros (_ & es & Hq' & _). congruence.
  - intros _. split; [exact Hc |]. exists []. split; [exact Hq | left; reflexivity].
  - reflexivity.
  - discriminate.
  - intros (_ & es' & Hq' & [-> | (b & s & Hb' & _)]).
    + congruence.
    + assert (es' = es) by congruence. subst es'. congruence.
  - discriminate.
  - intros (_ & es' & Hq' & [-> | (b' & s' & Hb' & Hok)]).
    + congruence.
    + assert (es' = es) by congruence. subst es'.
      assert (b' = b) by congruence. subst b'.
      rewrite <- RunFacts.loop_result, Hl in Hok. discriminate.
  - intros _. split; [exact Hc |]. exists es. split; [exact Hq |].
    right. exists b, s. split; [exact Hb |].
    rewrite <- RunFacts.loop_result, Hl. reflexivity.
  - reflexivity.
Qed.

Lemma all_ok_at (w : World) (n k : nat) :
  all_ok w 0 n = true -> (k < n)%nat ->
  is_ok (sign w k) = true /\ is_ok (submit w k) = true.
Proof.
  unfold all_ok. intros H Hk. rewrite forallb_forall in H.
  specialize (H k). rewrite in_seq in H.
  apply andb_prop. apply H. lia.
Qed.

Lemma loop_first_failure (w : World) (txs : Batch) :
  forall i m e,
    (m < List.length txs)%nat ->
    all_ok w i m = true ->
    sign w (i + m) = Err e \/
    (is_ok (sign w (i + m)) = true /\ submit w (i + m) = Err e) ->
    snd (loop w i txs) = Err e /\
    exists t,
      fst (loop w i txs)
      = t ++ [if is_ok (sign w (i + m))
              then SubmitEnd (i + m) false
              else SignEnd (i + m) false].
Proof.
  induction txs as [| tx rest IH]; intros i m e Hm Hok Hf.
  - simpl in Hm. lia.
  - rewrite RunFacts.loop_cons. destruct m as [| m].
    + rewrite Nat.add_0_r in *. destruct Hf as [Hs | [Hs Hb]].
      * rewrite Hs. split; [reflexivity |].
        exists [Console LogLevel "pending transaction:";
                Console LogLevel "signing tx with secret key:";
                SignStart i]. reflexivity.
      * destruct (sign w i); [| discriminate]. rewrite Hb.
        split; [reflexivity |].
        exists [Console LogLevel "pending transaction:";
                Console LogLevel "signing tx with secret key:";
                SignStart i; SignEnd i true;
                Console LogLevel "submitting pending tx to RPC ...";
                SubmitStart i]. reflexivity.
    + rewrite RunFacts.all_ok_S in Hok.
      apply andb_prop in Hok. destruct Hok as [Hi Hrest].
      apply andb_prop in Hi. destruct Hi as [Hs Hb].
      destruct (sign w i); [| discriminate].
      destruct (submit w i); [| discriminate].
      cbn [fst snd].
      replace (i + S m)%nat with (S i + m)%nat in * by lia.
      simpl in Hm.
      destruct (IH (S i) m e) as [IH1 (t & IH2)];
        [lia | exact Hrest | exact Hf |].
      split; [exact IH1 |].
      exists (iteration i ++ t). rewrite IH2, <- app_assoc. reflexivity.
Qed.

(** A run rejects with [e] exactly when [e] is the rejection of the
    first awaited call that fails: the connection; or, the connection
    made, the UTXO query; or, the node having answered with some UTXO,
    the builder; or, the Batch built, the signing or the submission of the
    first transaction of the Batch that does not go through.  The script
    adds no error of its own, replaces none and hides none. *)
Theorem rejection_is_the_first_failure (w : World) (e : Error) :
  outcome w = Err e <->
  connect w = Err e \/
  (connect w = Ok tt /\
   getUtxosByAddresses w [kaspaAddress w] = Err e) \/
  (connect w = Ok tt /\
   exists es,
     getUtxosByAddresses w [kaspaAddress w] = Ok es /\
     es <> [] /\
     createTransactions w (request w es) = Err e) \/
  (connect w = Ok tt /\
   exists es b s k,
     getUtxosByAddresses w [kaspaAddress w] = Ok es /\
     es <> [] /\
     createTransactions w (request w es) = Ok (b, s) /\
     (k < List.length b)%nat /\
     all_ok w 0 k = true /\
     (sign w k = Err e \/
      (is_ok (sign w k) = true /\ submit w k = Err e))).
Proof.
  split.
  - shape w; rewrite Ho; intros E; try discriminate;
      inversion E; subst.
    + left; exact Hc.
    + right; left. split; assumption.
    + right; right; left. split; [exact Hc |].
      exists es. repeat split; assumption.
    + right; right; right. split; [exact Hc |].
      destruct (RunFacts.loop_error w b 0 e Hl) as (k & Hk & Hok & Hf).
      exists es, b, s, k. rewrite Nat.sub_0_r in Hok.
      repeat split; try assumption. lia.
  - intros [H | [[H1 H2] | [[H1 (es' & H2 & H3 & H4)]
                            | [H1 (es' & b' & s' & k & H2 & H3 & H4 & Hk & Hok & Hf)]]]];
      shape w; rewrite Ho; try congruence.
    + assert (es = es') by congruence. subst es'.
      assert (b = b') by congruence. subst b'.
      destruct (loop_first_failure w b 0 k e Hk Hok Hf) as [E _].
      congruence.
    + assert (es = es') by congruence. subst es'.
      assert (b = b') by congruence. subst b'.
      destruct (loop_first_failure w b 0 k e Hk Hok Hf) as [E _].
      congruence.
Qed.

Ltac shape0 w :=
  destruct (RunFacts.run_shape w)
    as [err Hc Hr | err Hc Hq Hr | Hc Hq Hr | es0 err Hc Hq Hes Hb Hr
        | es0 b0 s0 err Hc Hq Hes Hb Hl Hr | es0 b0 s0 Hc Hq Hes Hb Hl Hr];
  destruct (trace_of_run w _ _ Hr) as [Ht Ho].

Ltac not_in_prefix H :=
  simpl in H; repeat (destruct H as [H | H]; [discriminate |]); contradiction.

(** Nothing is signed or submitted unless the connection was made, the
    node answered with at least one UTXO and [createTransactions]
    returned a Batch; and then only transactions of that Batch are. *)
Theorem signing_needs_a_batch (w : World) (j : nat) :
  In (SignStart j) (trace w) \/ In (SubmitStart j) (trace w) ->
  exists es b s,
    connect w = Ok tt /\
    getUtxosByAddresses w [kaspaAddress w] = Ok es /\
    es <> [] /\
    createTransactions w (request w es) = Ok (b, s) /\
    (j < List.length b)%nat.
Proof.
  shape w; rewrite Ht; intros H.
  - destruct H as [H | H]; not_in_prefix H.
  - destruct H as [H | H]; not_in_prefix H.
  - destruct H as [H | H]; not_in_prefix H.
  - destruct H as [H | H]; not_in_prefix H.
  - exists es, b, s. repeat split; try assumption.
    apply (RunFacts.loop_indices w b 0 j).
    destruct H as [H | H]; apply in_app_or in H; destruct H as [H | H];
      try not_in_prefix H; [left | right]; exact H.
  - exists es, b, s. repeat split; try assumption.
    apply (RunFacts.loop_indices w b 0 j).
    destruct H as [H | H]; apply in_app_or in H; destruct H as [H | H];
      try not_in_prefix H;
      apply in_app_or in H; destruct H as [H | H];
      try not_in_prefix H; [left | right]; exact H.
Qed.

(** When the Batch is built and every signing and submission succeeds,
    the run signs and submits every transaction of the Batch, each one
    once, one after the other in Batch order, and then disconnects. *)
Theorem complete_run_follows_the_schedule (w : World)
  (es : list UtxoEntryReference) (b : Batch) (s : Summary) :
  connect w = Ok tt ->
  getUtxosByAddresses w [kaspaAddress w] = Ok es ->
  es <> [] ->
  createTransactions w (request w es) = Ok (b, s) ->
  all_ok w 0 (List.length b) = true ->
  outcome w = Ok tt /\
  filter is_pipeline (trace w) = schedule 0 (List.length b) /\
  exists t, trace w = t ++ [Disconnect].
Proof.
  intros Hc' Hq' Hes' Hb' Hok.
  shape0 w; try congruence.
  - assert (es0 = es) by congruence. subst es0.
    assert (b0 = b) by congruence. subst b0.
    rewrite <- RunFacts.loop_result, Hl in Hok. discriminate.
  - assert (es0 = es) by congruence. subst es0.
    assert (b0 = b) by congruence. subst b0.
    rewrite Ht, Ho. split; [reflexivity |]. split.
    + rewrite !filter_app. rewrite (RunFacts.loop_schedule w b 0 Hok).
      simpl. rewrite app_nil_r. reflexivity.
    + exists (pre_loop w es ++ fst (loop w 0 b)).
      rewrite <- app_assoc. reflexivity.
Qed.

(** The loop has no retry: in any run, a transaction of the Batch is
    handed to the signer at most once and to the node at most once. *)
Theorem no_transaction_is_retried (w : World) (j : nat) :
  (count (is_sign_start j) (trace w) <= 1)%nat /\
  (count (is_submit_start j) (trace w) <= 1)%nat.
Proof.
  unfold count.
  shape w; rewrite Ht; try (simpl; split; lia).
  - destruct (RunFacts.loop_once w b 0 j) as [H1 H2].
    unfold count in H1, H2. simpl in H1, H2.
    rewrite !filter_app, !length_app. simpl. split; lia.
  - destruct (RunFacts.loop_once w b 0 j) as [H1 H2].
    unfold count in H1, H2. simpl in H1, H2.
    rewrite !filter_app, !length_app. simpl. split; lia.
Qed.

Lemma loop_no_setup (w : World) (b : Batch) :
  filter is_connect (fst (loop w 0 b)) = [] /\
  filter is_query (fst (loop w 0 b)) = [] /\
  filter is_create (fst (loop w 0 b)) = [].
Proof.
  repeat split;
    (apply RunFacts.loop_count_zero; [apply RunFacts.loop_events |]);
    intros [[] m | | | | | | | | |]; simpl; intros; congruence.
Qed.

(** Every run connects exactly once.  It queries the node at most once,
    and only for the sender's own address, and it calls
    [createTransactions] at most once. *)
Theorem one_connection_one_query_one_build (w : World) :
  count is_connect (trace w) = 1%nat /\
  (count is_query (trace w) <= 1)%nat /\
  (count is_create (trace w) <= 1)%nat /\
  (forall a, In (GetUtxosByAddresses a) (trace w) -> a = [kaspaAddress w]).
Proof.
  unfold count.
  assert (forall b a, ~ In (GetUtxosByAddresses a) (fst (loop w 0 b))) as Hloop.
  { intros b a. apply (RunFacts.filter_nil_not_in is_query);
      [apply loop_no_setup | reflexivity]. }
  shape w; rewrite Ht;
    try destruct (loop_no_setup w b) as (L1 & L2 & L3);
    rewrite ?filter_app, ?length_app, ?L1, ?L2, ?L3; simpl;
    (split; [reflexivity |]); (split; [lia |]); (split; [lia |]);
    intros a H.
  - not_in_prefix H.
  - repeat (destruct H as [H | H]; [try discriminate |]);
      [inversion H; reflexivity | contradiction].
  - repeat (destruct H as [H | H]; [try discriminate |]);
      try contradiction; inversion H; reflexivity.
  - repeat (destruct H as [H | H]; [try discriminate |]);
      try contradiction; inversion H; reflexivity.
  - repeat (destruct H as [H | H]; [try discriminate |]);
      [inversion H; reflexivity | exfalso; exact (Hloop b a H)].
  - repeat (destruct H as [H | H]; [try discriminate |]);
      [inversion H; reflexivity |].
    apply in_app_or in H. destruct H as [H | H];
      [exfalso; exact (Hloop b a H) | not_in_prefix H].
Qed.

(** The address a build request pays to is never the empty string. *)
Theorem request_pays_a_nonempty_address (w : World) (req : Request)
  (addr : string) (a : N) :
  In (CreateTransactions req) (trace w) ->
  In (addr, a) (req_outputs req) ->
  addr <> EmptyString.
Proof.
  intros Hin Hout. apply RequestFacts.create_requests in Hin.
  destruct Hin as (e0 & es & _ & ->).
  unfold request in Hout; cbn [req_outputs] in Hout.
  destruct Hout as [Hout | []]. inversion Hout; subst addr.
  unfold destination, Js.or_string.
  destruct (hd_error (argv w)) as [[| c r] |]; discriminate.
Qed.

(** The script writes through [console.error] in one situation only:
    the connection was made and the node answered with no UTXO; the
    message is then "No UTXOs found for address". *)
Theorem console_error_only_without_utxos (w : World) (msg : string) :
  In (Console ErrorLevel msg) (trace w) <->
  msg = "No UTXOs found for address" /\
  connect w = Ok tt /\
  getUtxosByAddresses w [kaspaAddress w] = Ok [].
Proof.
  assert (forall b, ~ In (Console ErrorLevel msg) (fst (loop w 0 b))) as Hloop.
  { intros b H.
    pose proof (RunFacts.loop_events w b 0) as Hev.
    rewrite forallb_forall in Hev. specialize (Hev _ H). discriminate. }
  shape w; rewrite Ht; split.
  - intros H. not_in_prefix H.
  - intros (_ & Hc' & _). congruence.
  - intros H. not_in_prefix H.
  - intros (_ & _ & Hq'). congruence.
  - intros H. simpl in H.
    repeat (destruct H as [H | H]; [try discriminate |]);
      try contradiction.
    inversion H. repeat split; assumption.
  - intros (-> & _ & _). simpl. do 8 right. left. reflexivity.
  - intros H. not_in_prefix H.
  - intros (_ & _ & Hq'). congruence.
  - intros H. apply in_app_or in H. destruct H as [H | H];
      [not_in_prefix H | exfalso; exact (Hloop b H)].
  - intros (_ & _ & Hq'). congruence.
  - intros H. apply in_app_or in H. destruct H as [H | H];
      [not_in_prefix H |].
    apply in_app_or in H. destruct H as [H | H];
      [exfalso; exact (Hloop b H) | not_in_prefix H].
  - intros (_ & _ & Hq'). congruence.
Qed.

Lemma loop_partial (w : World) (txs : Batch) :
  forall i m e,
    (m < List.length txs)%nat ->
    all_ok w i m = true ->
    (sign w (i + m) = Err e ->
     filter is_pipeline (fst (loop w i txs))
     = schedule i m ++ [SignStart (i + m); SignEnd (i + m) false]) /\
    (is_ok (sign w (i + m)) = true -> submit w (i + m) = Err e ->
     filter is_pipeline (fst (loop w i txs))
     = schedule i m ++ [SignStart (i + m); SignEnd (i + m) true;
                        SubmitStart (i + m); SubmitEnd (i + m) false]).
Proof.
  induction txs as [| tx rest IH]; intros i m e Hm Hok.
  - simpl in Hm. lia.
  - rewrite RunFacts.loop_cons. destruct m as [| m].
    + rewrite Nat.add_0_r. split.
      * intros Hs. rewrite Hs. reflexivity.
      * intros Hs Hb. destruct (sign w i); [| discriminate].
        rewrite Hb. reflexivity.
    + rewrite RunFacts.all_ok_S in Hok.
      apply andb_prop in Hok. destruct Hok as [Hi Hrest].
      apply andb_prop in Hi. destruct Hi as [Hs Hb].
      destruct (sign w i); [| discriminate].
      destruct (submit w i); [| discriminate].
      cbn [fst]. rewrite filter_app.
      replace (i + S m)%nat with (S i + m)%nat by lia.
      simpl in Hm.
      destruct (IH (S i) m e) as [IH1 IH2]; [lia | exact Hrest |].
      split.
      * intros Hf. rewrite (IH1 Hf). reflexivity.
      * intros Hf1 Hf2. rewrite (IH2 Hf1 Hf2). reflexivity.
Qed.

Lemma first_failure_trace (w : World)
  (es : list UtxoEntryReference) (b : Batch) (s : Summary) (k : nat)
  (e : Error) :
  connect w = Ok tt ->
  getUtxosByAddresses w [kaspaAddress w] = Ok es ->
  es <> [] ->
  createTransactions w (request w es) = Ok (b, s) ->
  (k < List.length b)%nat ->
  all_ok w 0 k = true ->
  (sign w k = Err e ->
   filter is_pipeline (trace w)
   = schedule 0 k ++ [SignStart k; SignEnd k false]) /\
  (is_ok (sign w k) = true -> submit w k = Err e ->
   filter is_pipeline (trace w)
   = schedule 0 k ++ [SignStart k; SignEnd k true;
                      SubmitStart k; SubmitEnd k false]).
Proof.
  intros Hc' Hq' Hes' Hb' Hk Hok.
  destruct (loop_partial w b 0 k e Hk Hok) as [P1 P2]. simpl in P1, P2.
  assert (is_ok (snd (loop w 0 b)) = true ->
          sign w k = Err e \/ (is_ok (sign w k) = true /\ submit w k = Err e) ->
          False) as Hno.
  { intros Hfin Hf. rewrite RunFacts.loop_result in Hfin.
    unfold all_ok in Hfin. rewrite forallb_forall in Hfin.
    specialize (Hfin k). rewrite in_seq in Hfin.
    assert (is_ok (sign w k) && is_ok (submit w k) = true) as Hk2
      by (apply Hfin; lia).
    apply andb_prop in Hk2. destruct Hk2 as [K1 K2].
    destruct Hf as [Hf | [_ Hf]]; rewrite Hf in *; discriminate. }
  shape0 w; try congruence.
  - assert (es0 = es) by congruence. subst es0.
    assert (b0 = b) by congruence. subst b0.
    rewrite Ht, filter_app. simpl filter at 1.
    split; [intros Hf; rewrite (P1 Hf) | intros Hf1 Hf2; rewrite (P2 Hf1 Hf2)];
      reflexivity.
  - assert (es0 = es) by congruence. subst es0.
    assert (b0 = b) by congruence. subst b0.
    rewrite Hl in Hno.
    split; [intros Hf | intros Hf1 Hf2]; exfalso; apply Hno; auto.
Qed.

(** A failure does not undo what went before it.  When the transaction
    at position [k] is the first one to fail, every transaction before it
    has been signed and accepted by the node, in Batch order, and the
    failing call is the last thing the script does with the Batch. *)
Theorem earlier_transactions_stay_submitted (w : World)
  (es : list UtxoEntryReference) (b : Batch) (s : Summary) (k : nat)
  (e : Error) :
  connect w = Ok tt ->
  getUtxosByAddresses w [kaspaAddress w] = Ok es ->
  es <> [] ->
  createTransactions w (request w es) = Ok (b, s) ->
  (k < List.length b)%nat ->
  all_ok w 0 k = true ->
  sign w k = Err e \/ (is_ok (sign w k) = true /\ submit w k = Err e) ->
  filter is_pipeline (trace w)
  = schedule 0 k
      ++ SignStart k
      :: (if is_ok (sign w k)
          then [SignEnd k true; SubmitStart k; SubmitEnd k false]
          else [SignEnd k false]).
Proof.
  intros Hc Hq Hes Hb Hk Hok Hf.
  destruct (first_failure_trace w es b s k e Hc Hq Hes Hb Hk Hok) as [P1 P2].
  destruct Hf as [Hf | [Hf1 Hf2]].
  - rewrite (P1 Hf), Hf. reflexivity.
  - rewrite (P2 Hf1 Hf2), Hf1. reflexivity.
Qed.

Lemma quiet_never_cancelled (k j : nat) (t : list Event) :
  forallb (quiet k) t = true ->
  forall s,
    s <> DependencyCancelled -> s <> Cancelled ->
    fold_left (step_status j) t s <> DependencyCancelled /\
    fold_left (step_status j) t s <> Cancelled.
Proof.
  induction t as [| e t IH]; intros Hq s H1 H2.
  - split; assumption.
  - simpl in Hq. apply andb_prop in Hq. destruct Hq as [He Ht].
    simpl. apply (IH Ht).
    + destruct e as [| | | | i | i ok | i | i ok | i st |]; simpl in *;
        try assumption; try discriminate;
        destruct (Nat.eqb i j); try assumption;
        try destruct ok; destruct s; try assumption; discriminate.
    + destruct e as [| | | | i | i ok | i | i ok | i st |]; simpl in *;
        try assumption; try discriminate;
        destruct (Nat.eqb i j); try assumption;
        try destruct ok; destruct s; try assumption; discriminate.
Qed.

(** C2, as the code has it.  When signing or submission of a transaction
    of the Batch fails, let [k'] be the first position at which that
    happens (it is the failing position itself when nothing before it
    fails).  The run ends with exactly the rejection of the operation
    that failed on [k'], and the settlement of that operation is the last
    thing it does.  No transaction behind [k'] is signed or submitted;
    each keeps the status [Built].  The script assigns no status at all:
    no transaction is ever marked [DependencyCancelled] (or [Cancelled]),
    so a dependency cancellation is not reported, neither distinctly nor
    otherwise. *)
Theorem later_transactions_untouched (w : World)
  (es : list UtxoEntryReference) (b : Batch) (s : Summary) (k : nat)
  (e : Error) :
  connect w = Ok tt ->
  getUtxosByAddresses w [kaspaAddress w] = Ok es ->
  es <> [] ->
  createTransactions w (request w es) = Ok (b, s) ->
  (k < List.length b)%nat ->
  sign w k = Err e \/ submit w k = Err e ->
  exists k' e',
    (k' <= k)%nat /\
    all_ok w 0 k' = true /\
    (all_ok w 0 k = true -> k' = k) /\
    (sign w k' = Err e' \/
     (is_ok (sign w k') = true /\ submit w k' = Err e')) /\
    outcome w = Err e' /\
    (exists t,
        trace w = t ++ [if is_ok (sign w k')
                        then SubmitEnd k' false
                        else SignEnd k' false]) /\
    (forall j, (k' < j)%nat ->
               ~ In (SignStart j) (trace w) /\
               ~ In (SubmitStart j) (trace w) /\
               status_after (trace w) j = Built) /\
    (forall j st, ~ In (Mark j st) (trace w)) /\
    (forall j, status_after (trace w) j <> DependencyCancelled /\
               status_after (trace w) j <> Cancelled).
Proof.
  intros Hc' Hq' Hes' Hb' Hk Hfail.
  assert (is_ok (sign w k) && is_ok (submit w k) = false) as Hbad.
  { destruct Hfail as [H | H]; rewrite H; simpl;
      [reflexivity | apply andb_false_r]. }
  shape0 w; try congruence;
    assert (es0 = es) by congruence; subst es0;
    assert (b0 = b) by congruence; subst b0.
  - destruct (RunFacts.loop_error w b 0 err Hl) as (k' & Hk' & Hok & Hf).
    rewrite Nat.sub_0_r in Hok.
    assert (k' <= k)%nat as Hle.
    { destruct (Nat.le_gt_cases k' k) as [H | H]; [exact H |].
      destruct (all_ok_at w k' k Hok H) as [A1 A2].
      rewrite A1, A2 in Hbad. discriminate. }
    assert (sign w k' = Err err \/ submit w k' = Err err) as Hplain
      by (destruct Hf as [H | [_ H]]; [left | right]; exact H).
    destruct (DemoFacts.failing_run w es b s k' err Hc' Hq' Hes' Hb')
      as (e2 & k2 & _ & Hquiet & _ & _); [lia | exact Hplain |].
    destruct (loop_first_failure w b 0 k' err) as [_ (t & Hlast)];
      [lia | exact Hok | exact Hf |].
    simpl in Hlast.
    exists k', err.
    split; [exact Hle |]. split; [exact Hok |].
    split.
    { intros Hokk. destruct (Nat.eq_dec k' k) as [E | N]; [exact E |].
      exfalso. destruct (all_ok_at w k k' Hokk) as [A1 A2]; [lia |].
      destruct Hf as [H | [_ H]]; rewrite H in *; discriminate. }
    split; [exact Hf |]. split; [exact Ho |].
    split.
    { exists (pre_loop w es ++ t). rewrite Ht, Hlast, <- app_assoc.
      reflexivity. }
    split; [| split].
    + intros j Hj.
      assert (Nat.leb j k' = false) as Hjk by (apply Nat.leb_gt; exact Hj).
      split; [apply (DemoFacts.quiet_not_in k'); auto |].
      split; [apply (DemoFacts.quiet_not_in k'); auto |].
      unfold status_after. apply (DemoFacts.quiet_status k'); assumption.
    + intros j st. apply (DemoFacts.quiet_not_in k'); auto.
    + intros j. unfold status_after.
      apply (quiet_never_cancelled k'); [exact Hquiet | |]; discriminate.
  - exfalso.
    assert (all_ok w 0 (List.length b) = true) as Hall
      by (rewrite <- RunFacts.loop_result, Hl; reflexivity).
    destruct (all_ok_at w _ k Hall Hk) as [A1 A2].
    rewrite A1, A2 in Hbad. discriminate.
Qed.

End RunProperties.

Lemma rejection_is_the_first_failure_witness :
  Demo.connect Examples.second_submit_fails
  = Builder.Err (Demo.SubmissionError "rejected") \/
  (Demo.connect Examples.second_submit_fails = Builder.Ok tt /\
   Demo.getUtxosByAddresses Examples.second_submit_fails
     [Demo.kaspaAddress Examples.second_submit_fails]
   = Builder.Err (Demo.SubmissionError "rejected")) \/
  (Demo.connect Examples.second_submit_fails = Builder.Ok tt /\
   exists es,
     Demo.getUtxosByAddresses Examples.second_submit_fails
       [Demo.kaspaAddress Examples.second_submit_fails] = Builder.Ok es /\
     es <> [] /\
     Demo.createTransactions Examples.second_submit_fails
       (Demo.request Examples.second_submit_fails es)
     = Builder.Err (Demo.SubmissionError "rejected")) \/
  (Demo.connect Examples.second_submit_fails = Builder.Ok tt /\
   exists es b s k,
     Demo.getUtxosByAddresses Examples.second_submit_fails
       [Demo.kaspaAddress Examples.second_submit_fails] = Builder.Ok es /\
     es <> [] /\
     Demo.createTransactions Examples.second_submit_fails
       (Demo.request Examples.second_submit_fails es) = Builder.Ok (b, s) /\
     (k < List.length b)%nat /\
     Run.all_ok Examples.second_submit_fails 0 k = true /\
     (Demo.sign Examples.second_submit_fails k
      = Builder.Err (Demo.SubmissionError "rejected") \/
      (Run.is_ok (Demo.sign Examples.second_submit_fails k) = true /\
       Demo.submit Examples.second_submit_fails k
       = Builder.Err (Demo.SubmissionError "rejected")))).
Proof.
  apply (proj1 (RunProperties.rejection_is_the_first_failure
                  Examples.second_submit_fails
                  (Demo.SubmissionError "rejected"))).
  vm_compute. reflexivity.
Defined.

Lemma signing_needs_a_batch_witness :
  exists es b s,
    Demo.connect Examples.all_succeed = Builder.Ok tt /\
    Demo.getUtxosByAddresses Examples.all_succeed
      [Demo.kaspaAddress Examples.all_succeed] = Builder.Ok es /\
    es <> [] /\
    Demo.createTransactions Examples.all_succeed
      (Demo.request Examples.all_succeed es) = Builder.Ok (b, s) /\
    (2 < List.length b)%nat.
Proof.
  apply (RunProperties.signing_needs_a_batch Examples.all_succeed 2).
  right. vm_compute. do 32 right. left. reflexivity.
Defined.

Lemma complete_run_follows_the_schedule_witness :
  Demo.outcome Examples.all_succeed = Builder.Ok tt /\
  filter Run.is_pipeline (Demo.trace Examples.all_succeed) = Run.schedule 0 3 /\
  exists t, Demo.trace Examples.all_succeed = t ++ [Demo.Disconnect].
Proof.
  apply (RunProperties.complete_run_follows_the_schedule Examples.all_succeed
           [Examples.u1] [Examples.tx0; Examples.tx0; Examples.tx0]
           Examples.no_summary).
  - reflexivity.
  - reflexivity.
  - discriminate.
  - reflexivity.
  - vm_compute. reflexivity.
Defined.

Lemma request_pays_a_nonempty_address_witness :
  "kaspatest:dest"%string <> EmptyString.
Proof.
  apply (RunProperties.request_pays_a_nonempty_address Examples.with_argument
           (Demo.request Examples.with_argument [Examples.u1])
           "kaspatest:dest"%string
           (Demo.kaspaToSompi Examples.with_argument (2 # 10)%Q)).
  - vm_compute. do 9 right. left. reflexivity.
  - vm_compute. left. reflexivity.
Defined.

Lemma earlier_transactions_stay_submitted_witness :
  filter Run.is_pipeline (Demo.trace Examples.second_submit_fails)
  = [Demo.SignStart 0; Demo.SignEnd 0 true;
     Demo.SubmitStart 0; Demo.SubmitEnd 0 true;
     Demo.SignStart 1; Demo.SignEnd 1 true;
     Demo.SubmitStart 1; Demo.SubmitEnd 1 false].
Proof.
  apply (RunProperties.earlier_transactions_stay_submitted
           Examples.second_submit_fails [Examples.u1]
           [Examples.tx0; Examples.tx0; Examples.tx0] Examples.no_summary 1
           (Demo.SubmissionError "rejected")).
  - reflexivity.
  - reflexivity.
  - discriminate.
  - reflexivity.
  - simpl. lia.
  - vm_compute. reflexivity.
  - right. split; reflexivity.
Defined.

Lemma later_transactions_untouched_witness :
  exists k' e',
    (k' <= 1)%nat /\
    Run.all_ok Examples.second_submit_fails 0 k' = true /\
    (Run.all_ok Examples.second_submit_fails 0 1 = true -> k' = 1%nat) /\
    (Demo.sign Examples.second_submit_fails k' = Builder.Err e' \/
     (Run.is_ok (Demo.sign Examples.second_submit_fails k') = true /\
      Demo.submit Examples.second_submit_fails k' = Builder.Err e')) /\
    Demo.outcome Examples.second_submit_fails = Builder.Err e' /\
    (exists t,
        Demo.trace Examples.second_submit_fails
        = t ++ [if Run.is_ok (Demo.sign Examples.second_submit_fails k')
                then Demo.SubmitEnd k' false
                else Demo.SignEnd k' false]) /\
    (forall j, (k' < j)%nat ->
               ~ In (Demo.SignStart j) (Demo.trace Examples.second_submit_fails) /\
               ~ In (Demo.SubmitStart j) (Demo.trace Examples.second_submit_fails) /\
               Demo.status_after (Demo.trace Examples.second_submit_fails) j
               = Demo.Built) /\
    (forall j st,
        ~ In (Demo.Mark j st) (Demo.trace Examples.second_submit_fails)) /\
    (forall j,
        Demo.status_after (Demo.trace Examples.second_submit_fails) j
        <> Demo.DependencyCancelled /\
        Demo.status_after (Demo.trace Examples.second_submit_fails) j
        <> Demo.Cancelled).
Proof.
  apply (RunProperties.later_transactions_untouched
           Examples.second_submit_fails [Examples.u1]
           [Examples.tx0; Examples.tx0; Examples.tx0] Examples.no_summary 1
           (Demo.SubmissionError "rejected")).
  - reflexivity.
  - reflexivity.
  - discriminate.
  - reflexivity.
  - simpl. lia.
  - right. reflexivity.
Defined.
